(** * Multi-agent orchestrator: a shallow embedding of
      [src/multi_agent_orchestrator.py] and the properties of its core.

    The Python class [MultiAgentOrchestrator] is embedded as state-passing
    functions in a small state-and-exception monad.  What the program asks
    of its surroundings (the filesystem, the clock, the [json] encoder, the
    child processes, the order in which [as_completed] yields the futures)
    is answered by an
    [oracle] indexed by a logical clock, so every theorem below holds for
    every behaviour of the surroundings.  The methods come twice: as they
    run on a console that takes every line they print, and, in [Console],
    with their [print] calls on a console that may refuse a line. *)

From Stdlib Require Import Ascii String List ZArith Lia Bool Permutation.
From Stdlib Require Import Uint63 PrimFloat.
From stdpp Require Import gmap strings pretty.
Import ListNotations.

Local Open Scope Z_scope.
Set Warnings "-register-all".

(** ** Python values carried in task payloads ([Dict[str, Any]]) *)

Inductive pyval : Type :=
| PyNone
| PyBool (b : bool)
| PyInt (z : Z)
| PyStr (s : string)
| PyList (items : list pyval)
| PyDict (items : list (string * pyval))
| PyObject (repr : string).

(** ** Exceptions

    Every class listed derives from Python's [Exception]; [exn_str] is what
    [str(e)] returns.  Interrupts of the interpreter itself
    ([KeyboardInterrupt], [SystemExit]) are not agent behaviour and are not
    modelled. *)

Inductive exn_class : Type :=
| TimeoutExpired
| ValueError
| TypeError
| OSError
| RuntimeError
| UnicodeEncodeError.

Record exn : Type := mkExn { exn_type : exn_class; exn_str : string }.

Inductive outcome (A : Type) : Type :=
| Return (a : A)
| Raise (e : exn).
Arguments Return {A} a.
Arguments Raise {A} e.

(** ** The data model *)

(** [class AgentResult] *)
Record AgentResult : Type := mkAgentResult {
  agent_name : string;
  success : bool;
  output : string;
  artifacts : list string;
  timestamp : string
}.

(** The dictionary stored per registered agent by [register_agent]. *)
Record agent_info : Type := mkAgentInfo {
  script : string;
  description : string;
  active : bool
}.

(** A task handed to [orchestrate_parallel]: the dictionary with the two
    keys the code reads, ["agent"] and ["data"]. *)
Record task : Type := mkTask {
  agent : string;
  data : pyval
}.

(** [class MultiAgentOrchestrator]: the instance attributes. *)
Record orchestrator : Type := mkOrchestrator {
  workspace_path : string;
  agents : gmap string agent_info;
  results : list AgentResult
}.

(** [subprocess.CompletedProcess] with [capture_output=True, text=True]. *)
Record completed_process : Type := mkCompleted {
  returncode : Z;
  stdout : string;
  stderr : string
}.

(** ** The surroundings *)

Record oracle : Type := mkOracle {
  (** [os.path.exists(path)] at a given instant *)
  os_path_exists : nat -> string -> bool;
  (** [datetime.now().isoformat()] at a given instant *)
  datetime_now : nat -> string;
  (** [json.dumps(value)]: the text, or the exception it raises *)
  json_dumps : pyval -> outcome string;
  (** [subprocess.run(argv, capture_output=True, text=True, timeout=t)]
      started at a given instant: the completed process, or the exception
      ([TimeoutExpired] after the child was killed, [OSError] when the
      launch fails, ...) *)
  subprocess_run : nat -> list string -> Z -> outcome completed_process;
  (** the place of the future submitted at a given instant in what
      [as_completed] yields: the smaller key comes first.  The futures
      already finished when the loop starts come in the iteration order of
      a set and the others as they finish, so the order is the
      surroundings' to choose and any order can occur. *)
  yield_rank : nat -> nat
}.

(** What an execution does, in order, as far as the claims need it. *)
Inductive event : Type :=
| EvSpawn (name : string) (payload : pyval)
| EvSubmit (name : string) (payload : pyval)
| EvLaunch (argv : list string) (timeout : Z).

Record state : Type := mkState {
  self : orchestrator;
  tick : nat;
  trace : list event
}.

(** ** The monad: state with exceptions *)

Definition M (A : Type) : Type := state -> outcome A * state.

Definition ret {A} (a : A) : M A := fun st => (Return a, st).

Definition raise {A} (e : exn) : M A := fun st => (Raise e, st).

Definition bind {A B} (m : M A) (k : A -> M B) : M B :=
  fun st =>
    match m st with
    | (Return a, st') => k a st'
    | (Raise e, st') => (Raise e, st')
    end.

(** [try: body except ... as e: handler e] *)
Definition try_except {A} (body : M A) (handler : exn -> M A) : M A :=
  fun st =>
    match body st with
    | (Return a, st') => (Return a, st')
    | (Raise e, st') => handler e st'
    end.

Declare Scope monad_scope.
Delimit Scope monad_scope with monad.
Notation "x <- m ;; k" := (bind m (fun x => k))
  (at level 200, m at level 99, k at level 200, right associativity)
  : monad_scope.
Notation "m ;;; k" := (bind m (fun _ => k))
  (at level 200, k at level 200, right associativity) : monad_scope.
Local Open Scope monad_scope.

Definition get_self : M orchestrator := fun st => (Return (self st), st).

Definition set_self (o : orchestrator) : M unit :=
  fun st => (Return tt, mkState o (tick st) (trace st)).

Definition emit (e : event) : M unit :=
  fun st => (Return tt, mkState (self st) (tick st) (trace st ++ [e])).

(** Read the logical clock and advance it. *)
Definition fresh_tick : M nat :=
  fun st => (Return (tick st), mkState (self st) (S (tick st)) (trace st)).

(** Lift a finished computation's outcome back into the monad. *)
Definition of_outcome {A} (o : outcome A) : M A :=
  match o with
  | Return a => ret a
  | Raise e => raise e
  end.

Section Orchestrator.

Variable orc : oracle.

(** ** Library calls *)

Definition path_exists (path : string) : M bool :=
  t <- fresh_tick ;; ret (os_path_exists orc t path).

Definition now_isoformat : M string :=
  t <- fresh_tick ;; ret (datetime_now orc t).

Definition dumps (v : pyval) : M string := of_outcome (json_dumps orc v).

Definition run_process (argv : list string) (timeout : Z) : M completed_process :=
  emit (EvLaunch argv timeout) ;;;
  t <- fresh_tick ;;
  of_outcome (subprocess_run orc t argv timeout).

(** ** [AgentResult.__init__] *)

(** [artifacts or []] *)
Definition or_empty (artifacts : option (list string)) : list string :=
  match artifacts with
  | Some (a :: l) => a :: l
  | _ => []
  end.

Definition new_AgentResult (name : string) (ok : bool) (out : string)
    (arts : option (list string)) : M AgentResult :=
  ts <- now_isoformat ;;
  ret (mkAgentResult name ok out (or_empty arts) ts).

(** ** [MultiAgentOrchestrator.register_agent] *)

Definition register_agent (name script_path descr : string) : M unit :=
  found <- path_exists script_path ;;
  o <- get_self ;;
  set_self (mkOrchestrator (workspace_path o)
              (<[name := mkAgentInfo script_path descr found]> (agents o))
              (results o)).

(** ** [MultiAgentOrchestrator.spawn_agent] *)

Definition spawn_agent (name : string) (task_data : pyval) : M AgentResult :=
  emit (EvSpawn name task_data) ;;;
  o <- get_self ;;
  match agents o !! name with
  | None =>
      new_AgentResult name false ("Agent " +:+ name +:+ " not registered") None
  | Some info =>
      if negb (active info) then
        new_AgentResult name false
          ("Agent script " +:+ script info +:+ " not found") None
      else
        try_except
          (task_json <- dumps task_data ;;
           result <- run_process ["python3"; script info; task_json]%string 60 ;;
           if returncode result =? 0 then
             new_AgentResult name true (stdout result) None
           else
             new_AgentResult name false (stderr result) None)
          (fun e =>
             match exn_type e with
             | TimeoutExpired =>
                 new_AgentResult name false "Agent execution timeout" None
             | _ =>
                 new_AgentResult name false (exn_str e) None
             end)
  end.

(** ** [MultiAgentOrchestrator.orchestrate_parallel] *)

(** [ThreadPoolExecutor(max_workers=n)]: the constructor of
    [concurrent.futures] refuses a pool without workers. *)
Definition ThreadPoolExecutor (max_workers : Z) : M Z :=
  if max_workers <=? 0 then
    raise (mkExn ValueError "max_workers must be greater than 0")
  else ret max_workers.

(** A future that is done: its place in what [as_completed] yields and
    what its call produced. *)
Record future : Type := mkFuture {
  yield_key : nat;
  fut_outcome : outcome AgentResult
}.

(** [executor.submit(self.spawn_agent, task["agent"], task["data"])].  The
    call runs on a worker thread; it reads [self.agents] only, so its
    result does not depend on how the workers interleave, and it is run
    here at submission. *)
Definition submit (t : task) : M future :=
  emit (EvSubmit (agent t) (data t)) ;;;
  tk <- fresh_tick ;;
  fun st =>
    let (o, st') := spawn_agent (agent t) (data t) st in
    (Return (mkFuture (yield_rank orc tk) o), st').

(** The dictionary comprehension over [tasks]. *)
Fixpoint submit_all (tasks : list task) : M (list future) :=
  match tasks with
  | [] => ret []
  | t :: rest =>
      f <- submit t ;;
      fs <- submit_all rest ;;
      ret (f :: fs)
  end.

(** [as_completed(futures)]: the futures in the order in which the
    iterator yields them, which the surroundings choose through the keys;
    it is a permutation of the futures and nothing more is known of it. *)
Fixpoint insert_completed (f : future) (fs : list future) : list future :=
  match fs with
  | [] => [f]
  | g :: rest =>
      if (yield_key f <? yield_key g)%nat then f :: g :: rest
      else g :: insert_completed f rest
  end.

Definition as_completed (fs : list future) : list future :=
  fold_right insert_completed [] fs.

Definition append_result (r : AgentResult) : M unit :=
  o <- get_self ;;
  set_self (mkOrchestrator (workspace_path o) (agents o) (results o ++ [r])).

(** The [for future in as_completed(futures)] loop; [acc] is the local
    list [results]. *)
Fixpoint collect (fs : list future) (acc : list AgentResult)
    : M (list AgentResult) :=
  match fs with
  | [] => ret acc
  | f :: rest =>
      result <- of_outcome (fut_outcome f) ;;
      append_result result ;;;
      collect rest (acc ++ [result])
  end.

Definition orchestrate_parallel (tasks : list task) : M (list AgentResult) :=
  ThreadPoolExecutor (Z.min (Z.of_nat (length tasks)) 4) ;;;
  futures <- submit_all tasks ;;
  collect (as_completed futures) [].

(** ** [MultiAgentOrchestrator.run_feature_pipeline] *)

Definition planning_tasks (feature_request workspace : string) : list task :=
  [ mkTask "planner"
      (PyDict [("request", PyStr feature_request);
               ("workspace", PyStr workspace)]%string) ].

Definition implementation_tasks : list task :=
  [ mkTask "refactor" (PyDict [("target", PyStr "code_quality")]%string);
    mkTask "test_gen" (PyDict [("coverage_target", PyInt 80)]%string);
    mkTask "doc_gen" (PyDict [("format", PyStr "markdown")]%string) ].

Definition review_tasks (impl_results : list AgentResult) : list task :=
  [ mkTask "reviewer"
      (PyDict [("artifacts",
                PyList (map (fun r => PyList (map PyStr (artifacts r)))
                          impl_results))]%string) ].

Definition run_feature_pipeline (feature_request : string) : M bool :=
  o <- get_self ;;
  planning_results <-
    orchestrate_parallel (planning_tasks feature_request (workspace_path o)) ;;
  if negb (forallb success planning_results) then ret false
  else
    impl_results <- orchestrate_parallel implementation_tasks ;;
    review_results <- orchestrate_parallel (review_tasks impl_results) ;;
    let all_success := forallb success (impl_results ++ review_results) in
    ret all_success.

(** ** [MultiAgentOrchestrator.get_summary] *)

(** A Python number: an [int] or a [float], the latter an IEEE 754
    double as the kernel's primitive floats are. *)
Inductive pynum : Type :=
| PyZ (z : Z)
| PyFloat (x : float).

(** [float(n)] for an [int]: exact below [2^53], which no list length
    reaches. *)
Definition float_of_Z (z : Z) : float := PrimFloat.of_uint63 (Uint63.of_Z z).

(** The dictionary [get_summary] returns. *)
Record summary : Type := mkSummary {
  total_agents : Z;
  successful : Z;
  failed : Z;
  success_rate : pynum;
  summary_results : list (string * bool * string)
}.

(** [sum(1 for r in rs if r.success)] *)
Definition sum_successful (rs : list AgentResult) : Z :=
  fold_left Z.add (map (fun _ => 1) (List.filter success rs)) 0.

(** [successful / total * 100]: the true division of two [int]s gives a
    [float], which is then multiplied by [100]. *)
Definition get_summary : M summary :=
  o <- get_self ;;
  let total := Z.of_nat (length (results o)) in
  let successful := sum_successful (results o) in
  ret (mkSummary total successful (total - successful)
         (if total >? 0 then
            PyFloat (float_of_Z successful / float_of_Z total * 100)%float
          else PyZ 0)
         (map (fun r => (agent_name r, success r, timestamp r)) (results o))).

End Orchestrator.

(** [MultiAgentOrchestrator.__init__] *)
Definition new_orchestrator (workspace : string) : orchestrator :=
  mkOrchestrator workspace ∅ [].

Definition initial_state (workspace : string) : state :=
  mkState (new_orchestrator workspace) 0 [].

(** ** Reading the trace

    The process launches, the [spawn_agent] calls and the pool submissions
    recorded in a trace. *)
Definition launches (tr : list event) : list (list string * Z) :=
  flat_map (fun e => match e with
                     | EvLaunch argv t => [(argv, t)]
                     | _ => []
                     end) tr.

Definition spawned (tr : list event) : list string :=
  flat_map (fun e => match e with
                     | EvSpawn name _ => [name]
                     | _ => []
                     end) tr.

Definition submitted (tr : list event) : list string :=
  flat_map (fun e => match e with
                     | EvSubmit name _ => [name]
                     | _ => []
                     end) tr.

(** The results held by the futures of a list that returned one. *)
Definition results_of (fs : list future) : list AgentResult :=
  flat_map (fun f => match fut_outcome f with
                     | Return r => [r]
                     | Raise _ => []
                     end) fs.

Definition all_returned (fs : list future) : Prop :=
  Forall (fun f => exists r, fut_outcome f = Return r) fs.

(** ** Sequences of calls on one orchestrator

    A caller's session: any of the five methods, in any order.  A call that
    raises leaves the orchestrator as it was at the raise, and the session
    goes on. *)

Inductive op : Type :=
| OpRegister (name path descr : string)
| OpSpawn (name : string) (payload : pyval)
| OpParallel (tasks : list task)
| OpPipeline (feature_request : string)
| OpSummary.

Definition run_op (orc : oracle) (o : op) (st : state) : state :=
  match o with
  | OpRegister name path descr => snd (register_agent orc name path descr st)
  | OpSpawn name payload => snd (spawn_agent orc name payload st)
  | OpParallel tasks => snd (orchestrate_parallel orc tasks st)
  | OpPipeline feature_request => snd (run_feature_pipeline orc feature_request st)
  | OpSummary => snd (get_summary st)
  end.

Definition run_ops (orc : oracle) (ops : list op) (st : state) : state :=
  fold_left (fun s o => run_op orc o s) ops st.

Definition registers (name : string) (o : op) : bool :=
  match o with
  | OpRegister n _ _ => String.eqb n name
  | _ => false
  end.

(** What a call leaves behind: the results it appended to the history and
    the events it added to the trace, with the registry untouched. *)
Record extends (st st' : state) (rs : list AgentResult) (evs : list event)
    : Prop := mkExtends {
  ext_workspace : workspace_path (self st') = workspace_path (self st);
  ext_agents : agents (self st') = agents (self st);
  ext_results : results (self st') = results (self st) ++ rs;
  ext_trace : trace st' = trace st ++ evs;
  ext_tick : (tick st <= tick st')%nat
}.

(** A task whose agent is registered with [active] false. *)
Definition unavailable (st : state) (t : task) : Prop :=
  exists info, agents (self st) !! agent t = Some info /\ active info = false.



(** ** The worker pool, step by step

    [orchestrate_parallel] seen as a transition system over the embedded
    methods: the main thread builds the pool, submits the tasks one by one,
    iterates over [as_completed] and leaves the [with] block, while the
    threads of the pool take work items off the queue and run [spawn_agent]
    on them.  The pool follows [concurrent.futures.ThreadPoolExecutor]:
    [submit] enqueues the work item and starts a thread when no worker has
    signalled that it is idle and fewer than [max_workers] threads exist; a
    worker that finishes an item hands the outcome to its future and
    signals the idle semaphore.  The threads share the orchestrator, the
    clock and the trace; a worker runs the embedded [spawn_agent] on them
    in one step, at the instant it starts the call, and its child process,
    if the call launched one, lives from then until the worker is told of
    its end.  Tasks are named by their position in the batch. *)

Section PoolModel.

Variable orc : oracle.

Local Open Scope nat_scope.

(** Where a worker stands inside [spawn_agent]; [o] is what the call
    makes of the child's end. *)
Inductive phase : Type :=
| BeforeRun                              (* about to call [spawn_agent] *)
| ChildAlive (o : outcome AgentResult)   (* blocked in [subprocess.run]:
                                            one child process in flight *)
| AfterRun (o : outcome AgentResult).    (* no child, or the child is gone *)

Inductive worker : Type :=
| Idle
| Busy (id : nat) (ph : phase).

(** Where the thread that called [orchestrate_parallel] stands. *)
Inductive caller : Type :=
| Running                        (* inside the [with] block *)
| Leaving (e : exn)              (* [future.result()] raised [e] *)
| Returned (rs : list AgentResult)
| Raised (e : exn).

Record pool : Type := mkPool {
  shared : state;            (* the orchestrator, the clock, the trace *)
  batch : list task;         (* [tasks] *)
  max_workers : nat;
  next_task : nat;           (* tasks submitted so far *)
  queue : list nat;          (* work items nobody has taken yet *)
  idle_sem : nat;            (* the pool's idle semaphore *)
  workers : list worker;     (* the pool's threads *)
  finished : list (nat * outcome AgentResult);
                             (* futures done that the loop has yet to see *)
  collected : list nat;      (* futures the [for] loop has consumed *)
  local_results : list AgentResult;   (* the local list [results] *)
  main_thread : caller
}.

(** The [with ThreadPoolExecutor(max_workers=min(len(tasks), 4))] line. *)
Definition start (tasks : list task) (st : state) : pool :=
  match ThreadPoolExecutor (Z.min (Z.of_nat (length tasks)) 4) st with
  | (Return cap, st') =>
      mkPool st' tasks (Z.to_nat cap) 0 [] 0 [] [] [] [] Running
  | (Raise e, st') => mkPool st' tasks 0 0 [] 0 [] [] [] [] (Raised e)
  end.

Inductive action : Type :=
| ActSubmit               (* main: [executor.submit] of the next task *)
| ActTake (j : nat)       (* worker [j] takes the head of the queue *)
| ActStart (j : nat)      (* worker [j] calls [spawn_agent] *)
| ActExit (j : nat)       (* the child of worker [j] exits or is killed *)
| ActDone (j : nat)       (* worker [j] hands the outcome to the future *)
| ActCollect (k : nat)    (* main: [as_completed] yields the [k]-th of the
                             futures done, the loop body runs *)
| ActReturn.              (* main: the [with] block is left *)

Definition with_workers (p : pool) (ws : list worker) : pool :=
  mkPool (shared p) (batch p) (max_workers p) (next_task p) (queue p)
    (idle_sem p) ws (finished p) (collected p) (local_results p)
    (main_thread p).

Definition with_main_thread (p : pool) (c : caller) : pool :=
  mkPool (shared p) (batch p) (max_workers p) (next_task p) (queue p)
    (idle_sem p) (workers p) (finished p) (collected p) (local_results p) c.

(** [ThreadPoolExecutor._adjust_thread_count] *)
Definition adjust_thread_count (sem : nat) (ws : list worker) (cap : nat)
    : nat * list worker :=
  if 0 <? sem then (sem - 1, ws)
  else if length ws <? cap then (sem, ws ++ [Idle])
  else (sem, ws).

(** Whether a call that took the state from [st] to [st'] launched a
    child process. *)
Definition launched (st st' : state) : bool :=
  length (launches (trace st)) <? length (launches (trace st')).

Definition is_idle (w : worker) : bool :=
  match w with Idle => true | Busy _ _ => false end.

Definition exec (a : action) (p : pool) : option pool :=
  match a with
  | ActSubmit =>
      match main_thread p, batch p !! next_task p with
      | Running, Some t =>
          let (sem, ws) :=
            adjust_thread_count (idle_sem p) (workers p) (max_workers p) in
          Some (mkPool
                  (snd ((emit (EvSubmit (agent t) (data t)) ;;; fresh_tick)
                          (shared p)))
                  (batch p) (max_workers p) (S (next_task p))
                  (queue p ++ [next_task p]) sem ws
                  (finished p) (collected p) (local_results p) Running)
      | _, _ => None
      end
  | ActTake j =>
      match workers p !! j, queue p with
      | Some Idle, id :: rest =>
          Some (mkPool (shared p) (batch p) (max_workers p) (next_task p)
                  rest (idle_sem p) (<[j := Busy id BeforeRun]> (workers p))
                  (finished p) (collected p) (local_results p)
                  (main_thread p))
      | _, _ => None
      end
  | ActStart j =>
      match workers p !! j with
      | Some (Busy id BeforeRun) =>
          match batch p !! id with
          | Some t =>
              let (o, st') := spawn_agent orc (agent t) (data t) (shared p) in
              let ph :=
                if launched (shared p) st' then ChildAlive o else AfterRun o in
              Some (mkPool st' (batch p) (max_workers p) (next_task p)
                      (queue p) (idle_sem p) (<[j := Busy id ph]> (workers p))
                      (finished p) (collected p) (local_results p)
                      (main_thread p))
          | None => None
          end
      | _ => None
      end
  | ActExit j =>
      match workers p !! j with
      | Some (Busy id (ChildAlive o)) =>
          Some (with_workers p (<[j := Busy id (AfterRun o)]> (workers p)))
      | _ => None
      end
  | ActDone j =>
      match workers p !! j with
      | Some (Busy id (AfterRun o)) =>
          Some (mkPool (shared p) (batch p) (max_workers p) (next_task p)
                  (queue p) (S (idle_sem p)) (<[j := Idle]> (workers p))
                  (finished p ++ [(id, o)]) (collected p) (local_results p)
                  (main_thread p))
      | _ => None
      end
  | ActCollect k =>
      match main_thread p, finished p !! k with
      | Running, Some (id, o) =>
          if next_task p =? length (batch p) then
            match o with
            | Return r =>
                Some (mkPool (snd (append_result r (shared p)))
                        (batch p) (max_workers p) (next_task p) (queue p)
                        (idle_sem p) (workers p) (delete k (finished p))
                        (collected p ++ [id]) (local_results p ++ [r])
                        Running)
            | Raise e =>
                Some (mkPool (shared p)
                        (batch p) (max_workers p) (next_task p) (queue p)
                        (idle_sem p) (workers p) (delete k (finished p))
                        (collected p ++ [id]) (local_results p)
                        (Leaving e))
            end
          else None
      | _, _ => None
      end
  | ActReturn =>
      match main_thread p with
      | Running =>
          (* the loop has been handed every future of the batch; that the
             pool has no work left by then is proved, not assumed *)
          if (next_task p =? length (batch p))
             && (length (collected p) =? length (batch p))
          then Some (with_main_thread p (Returned (local_results p)))
          else None
      | Leaving e =>
          (* [shutdown(wait=True)]: the queue is drained and the threads
             are joined before the exception goes on *)
          if forallb is_idle (workers p) && (length (queue p) =? 0)
          then Some (with_main_thread p (Raised e))
          else None
      | _ => None
      end
  end.

(** A schedule: the actions in the order in which they happen. *)
Fixpoint run_schedule (acts : list action) (p : pool) : option pool :=
  match acts with
  | [] => Some p
  | a :: rest =>
      match exec a p with
      | Some p' => run_schedule rest p'
      | None => None
      end
  end.

(** The child processes in flight. *)
Definition in_flight (p : pool) : nat :=
  length (List.filter (fun w => match w with
                                | Busy _ (ChildAlive _) => true
                                | _ => false
                                end) (workers p)).

(** The tasks that workers hold. *)
Definition held (ws : list worker) : list nat :=
  flat_map (fun w => match w with Busy id _ => [id] | Idle => [] end) ws.

(** An outcome that the embedded [spawn_agent] gives for task [id] of the
    batch, on some state with the registry of the caller's. *)
Definition origin (tasks : list task) (st0 : state) (id : nat)
    (o : outcome AgentResult) : Prop :=
  exists t s s',
    tasks !! id = Some t /\
    agents (self s) = agents (self st0) /\
    spawn_agent orc (agent t) (data t) s = (o, s').

Definition worker_ok (tasks : list task) (st0 : state) (w : worker) : Prop :=
  match w with
  | Busy id (ChildAlive o) | Busy id (AfterRun o) => origin tasks st0 id o
  | _ => True
  end.

(** What holds in every state the pool reaches on the batch [tasks] from
    the caller's state [st0]. *)
Record pool_inv (tasks : list task) (st0 : state) (p : pool) : Prop :=
  mkPoolInv {
  inv_batch : batch p = tasks;
  inv_cap : max_workers p = Nat.min (length tasks) 4;
  inv_threads : length (workers p) <= max_workers p;
  inv_next : next_task p <= length tasks;
  inv_tasks :
    Permutation
      (queue p ++ held (workers p) ++ map fst (finished p) ++ collected p)
      (seq 0 (next_task p));
  inv_workers : Forall (worker_ok tasks st0) (workers p);
  inv_finished :
    Forall (fun f => origin tasks st0 (fst f) (snd f)) (finished p);
  inv_collected :
    Forall2 (fun id r => origin tasks st0 id (Return r))
      (collected p) (local_results p);
  inv_workspace : workspace_path (self (shared p)) = workspace_path (self st0);
  inv_agents : agents (self (shared p)) = agents (self st0);
  inv_results :
    results (self (shared p)) = results (self st0) ++ local_results p;
  inv_main :
    match main_thread p with
    | Running => True
    | Returned rs =>
        rs = local_results p /\ length (collected p) = length tasks
    | Leaving _ | Raised _ => False
    end
}.


End PoolModel.

(** Two tasks on two workers: both submitted, both taken, both calls
    started, the one child that was launched exits, the futures are
    handed over and collected, the second first. *)
Definition two_worker_schedule : list action :=
  [ActSubmit; ActSubmit; ActTake 0; ActTake 1; ActStart 0; ActStart 1;
   ActExit 0; ActDone 1; ActDone 0; ActCollect 0; ActCollect 0; ActReturn].

(** Ten tasks submitted, four taken and their calls started: the pool is
    full. *)
Definition saturating_schedule : list action :=
  repeat ActSubmit 10 ++ map ActTake (seq 0 4) ++ map ActStart (seq 0 4).


(** ** Concrete surroundings for examples *)

(** Every path exists, [json.dumps] yields ["{}"], every child behaves as
    [child], [as_completed] yields the futures in submission order. *)
Definition fixed_oracle (on_disk : bool) (child : outcome completed_process)
    : oracle :=
  mkOracle (fun _ _ => on_disk) (fun _ => "2025-01-01T00:00:00"%string)
    (fun _ => Return "{}"%string) (fun _ _ _ => child) (fun t => t).

(** An orchestrator on which [register_agent name path descr] has run. *)
Definition registered (orc : oracle) (name path descr : string) : state :=
  snd (register_agent orc name path descr (initial_state ".")).


(** What [subprocess.run] raises when the child outlives its timeout. *)
Definition timed_out : exn :=
  mkExn TimeoutExpired "Command timed out after 60 seconds".

(** A filesystem on which nothing exists at instant 0 and everything does
    afterwards. *)
Definition late_oracle (child : outcome completed_process) : oracle :=
  mkOracle (fun t _ => (0 <? t)%nat) (fun _ => "2025-01-01T00:00:00"%string)
    (fun _ => Return "{}"%string) (fun _ _ _ => child) (fun t => t).

(** The planner succeeds, the refactoring agent is not registered, the
    other agents succeed: the review still runs and the pipeline returns
    [False]. *)
Definition degraded_session : state :=
  let orc := fixed_oracle true (Return (mkCompleted 0 "ok" "")) in
  run_ops orc
    [OpRegister "planner" "agents/planner_agent.py" "plans";
     OpRegister "test_gen" "agents/test_generator_agent.py" "tests";
     OpRegister "doc_gen" "agents/doc_generator_agent.py" "docs";
     OpRegister "reviewer" "agents/review_agent.py" "reviews"]
    (initial_state ".").

(** The scenario of the spec: ["echo_ok"] exits 0 and prints ["hello"],
    ["echo_fail"] exits 1 and writes ["boom"] to standard error. *)
Definition scenario_oracle : oracle :=
  mkOracle (fun _ _ => true) (fun _ => "2025-01-01T00:00:00"%string)
    (fun _ => Return "{}"%string)
    (fun _ argv _ =>
       match argv with
       | [_; path; _] =>
           if String.eqb path "agents/echo_ok.py"
           then Return (mkCompleted 0 "hello" "")
           else Return (mkCompleted 1 "" "boom")
       | _ => Raise (mkExn OSError "bad command line")
       end)
    (fun t => t).

Definition scenario_session : state :=
  run_ops scenario_oracle
    [OpRegister "echo_ok" "agents/echo_ok.py" "succeeds";
     OpRegister "echo_fail" "agents/echo_fail.py" "fails";
     OpParallel [mkTask "echo_ok" (PyDict []); mkTask "echo_fail" (PyDict [])]]
    (initial_state ".").

(** ** Further readings of a run *)

(** The [spawn_agent] calls of a trace with their payloads. *)
Definition spawn_calls (tr : list event) : list (string * pyval) :=
  flat_map (fun e => match e with
                     | EvSpawn name payload => [(name, payload)]
                     | _ => []
                     end) tr.



(** The payload the reviewer receives when no implementation result
    carries an artifact. *)
Definition empty_review_payload : pyval :=
  PyDict [("artifacts"%string, PyList [PyList []; PyList []; PyList []])].

(** ** [main] of [multi_agent_orchestrator.py]

    The demonstration at the end of the module: a fresh orchestrator, five
    registrations, one batch of three tasks, the summary.  The summary is
    what [main] prints; it is returned here. *)

Definition demo_tasks : list task :=
  [ mkTask "refactor" (PyDict [("target", PyStr "performance")]%string);
    mkTask "test_gen" (PyDict [("focus", PyStr "edge_cases")]%string);
    mkTask "doc_gen" (PyDict [("style", PyStr "comprehensive")]%string) ].

Definition main_body (orc : oracle) : M summary :=
  register_agent orc "planner" "agents/planner_agent.py"
    "Task planning and breakdown" ;;;
  register_agent orc "refactor" "agents/refactor_agent.py"
    "Code refactoring and optimization" ;;;
  register_agent orc "test_gen" "agents/test_generator_agent.py"
    "Automated test generation" ;;;
  register_agent orc "doc_gen" "agents/doc_generator_agent.py"
    "Documentation generation" ;;;
  register_agent orc "reviewer" "agents/review_agent.py"
    "Code review and quality check" ;;;
  results <- orchestrate_parallel orc demo_tasks ;;
  summary <- get_summary ;;
  ret summary.

Definition main (orc : oracle) : outcome summary * state :=
  main_body orc (initial_state ".").

(** ** The console

    [print] writes a line to [sys.stdout] and raises when the stream
    refuses it: [UnicodeEncodeError] when the encoding of the stream has no
    code for a character of the line, [OSError] on a closed pipe.  The
    functions above are the methods on a console that takes every line.
    The functions of this module are the methods with every [print] of the
    source, on a console [stdout_write] that the surroundings choose; the
    calls that print nothing ([register_agent], [get_summary], the
    constructors) are shared. *)

Module Console.
Section Console.

Variable orc : oracle.

(** [sys.stdout.write] of a line and its end: nothing, or the exception. *)
Variable stdout_write : string -> outcome unit.

(** [json.dumps(summary, indent=2)], the text [main] prints last. *)
Variable summary_json : summary -> string.

Definition print (line : string) : M unit := of_outcome (stdout_write line).

(** [MultiAgentOrchestrator.spawn_agent]: the first [print] stands before
    the [try], two stand inside it and one in each handler. *)
Definition spawn_agent (name : string) (task_data : pyval) : M AgentResult :=
  emit (EvSpawn name task_data) ;;;
  o <- get_self ;;
  match agents o !! name with
  | None =>
      new_AgentResult orc name false
        ("Agent " +:+ name +:+ " not registered") None
  | Some info =>
      if negb (active info) then
        new_AgentResult orc name false
          ("Agent script " +:+ script info +:+ " not found") None
      else
        print ("🤖 Spawning " +:+ name +:+ ": " +:+ description info) ;;;
        try_except
          (task_json <- dumps orc task_data ;;
           result <-
             run_process orc ["python3"; script info; task_json]%string 60 ;;
           if returncode result =? 0 then
             print ("✅ " +:+ name +:+ " completed successfully") ;;;
             new_AgentResult orc name true (stdout result) None
           else
             print ("❌ " +:+ name +:+ " failed: " +:+ stderr result) ;;;
             new_AgentResult orc name false (stderr result) None)
          (fun e =>
             match exn_type e with
             | TimeoutExpired =>
                 print ("⏰ " +:+ name +:+ " timed out") ;;;
                 new_AgentResult orc name false "Agent execution timeout" None
             | _ =>
                 print ("⚠️ " +:+ name +:+ " error: " +:+ exn_str e) ;;;
                 new_AgentResult orc name false (exn_str e) None
             end)
  end.

(** [executor.submit(self.spawn_agent, ...)]: what the call raises on the
    worker thread is kept by the future. *)
Definition submit (t : task) : M future :=
  emit (EvSubmit (agent t) (data t)) ;;;
  tk <- fresh_tick ;;
  fun st =>
    let (o, st') := spawn_agent (agent t) (data t) st in
    (Return (mkFuture (yield_rank orc tk) o), st').

Fixpoint submit_all (tasks : list task) : M (list future) :=
  match tasks with
  | [] => ret []
  | t :: rest =>
      f <- submit t ;;
      fs <- submit_all rest ;;
      ret (f :: fs)
  end.

(** [MultiAgentOrchestrator.orchestrate_parallel]; [future.result()]
    raises again in the caller what the worker raised. *)
Definition orchestrate_parallel (tasks : list task) : M (list AgentResult) :=
  print ("🎼 Orchestrating " +:+ pretty (length tasks)
         +:+ " agents in parallel...") ;;;
  ThreadPoolExecutor (Z.min (Z.of_nat (length tasks)) 4) ;;;
  futures <- submit_all tasks ;;
  collect (as_completed futures) [].

(** [MultiAgentOrchestrator.run_feature_pipeline] *)
Definition run_feature_pipeline (feature_request : string) : M bool :=
  print ("🚀 Starting feature pipeline: " +:+ feature_request) ;;;
  o <- get_self ;;
  planning_results <-
    orchestrate_parallel (planning_tasks feature_request (workspace_path o)) ;;
  if negb (forallb success planning_results) then
    print "❌ Planning phase failed" ;;;
    ret false
  else
    impl_results <- orchestrate_parallel implementation_tasks ;;
    review_results <- orchestrate_parallel (review_tasks impl_results) ;;
    let all_success := forallb success (impl_results ++ review_results) in
    (if all_success then print "🎉 Feature pipeline completed successfully!"
     else print "⚠️ Pipeline issues detected - check agent outputs") ;;;
    ret all_success.

(** [main]: the summary is printed and, here, returned as well. *)
Definition main_body : M summary :=
  register_agent orc "planner" "agents/planner_agent.py"
    "Task planning and breakdown" ;;;
  register_agent orc "refactor" "agents/refactor_agent.py"
    "Code refactoring and optimization" ;;;
  register_agent orc "test_gen" "agents/test_generator_agent.py"
    "Automated test generation" ;;;
  register_agent orc "doc_gen" "agents/doc_generator_agent.py"
    "Documentation generation" ;;;
  register_agent orc "reviewer" "agents/review_agent.py"
    "Code review and quality check" ;;;
  results <- orchestrate_parallel demo_tasks ;;
  summary <- get_summary ;;
  print (String "010"%char "📊 Orchestration Summary:") ;;;
  print (summary_json summary) ;;;
  ret summary.

Definition main : outcome summary * state :=
  main_body (initial_state ".").

End Console.
End Console.

(** A console that takes every line, as a terminal in UTF-8 does. *)
Definition utf8_stdout (line : string) : outcome unit := Return tt.

(** [sys.stdout] with the [ascii] codec and strict errors, as under
    [PYTHONIOENCODING=ascii]: a line with a byte outside ASCII raises
    [UnicodeEncodeError].  The message of the exception, which names the
    character and its position, is cut short. *)
Definition ascii_stdout (line : string) : outcome unit :=
  if forallb (fun c => (nat_of_ascii c <? 128)%nat) (list_ascii_of_string line)
  then Return tt
  else Raise (mkExn UnicodeEncodeError
                "'ascii' codec can't encode character: ordinal not in range(128)").

(** The line a handler of [spawn_agent] prints for the exception it
    caught. *)
Definition failure_report (name : string) (e : exn) : string :=
  match exn_type e with
  | TimeoutExpired => "⏰ " +:+ name +:+ " timed out"
  | _ => "⚠️ " +:+ name +:+ " error: " +:+ exn_str e
  end.

(** A pipe whose reader leaves once the agent has been announced: every
    later line raises [BrokenPipeError], an [OSError]. *)
Definition closing_pipe (line : string) : outcome unit :=
  if String.prefix "🤖" line then Return tt
  else Raise (mkExn OSError "[Errno 32] Broken pipe").

(** A rendering of the summary for the examples; [json.dumps] writes ASCII
    only. *)
Definition totals_json (s : summary) : string :=
  "{total_agents: " +:+ pretty (total_agents s) +:+ "}".

(** ** [main] of [agent_registry_demo.py]

    A caller of the orchestrator: six registrations on a fresh
    orchestrator, the agents sorted into active and inactive, and, when at
    least three are active, one batch of three tasks and the summary.  The
    registry is fresh and the six names differ, so iterating over
    [orchestrator.agents.items()] visits them in the order of
    registration. *)











(** ** The rate of the summary, as the spec words it *)

(** [100*k/(k+m)]: the product is taken on [int]s, the division gives the
    [float]. *)
Definition rate_as_specified (k m : Z) : float :=
  (float_of_Z (100 * k) / float_of_Z (k + m))%float.

(** A session that leaves seven successes and eighteen failures in the
    history. *)
Definition rounding_session : state :=
  run_ops scenario_oracle
    [OpRegister "echo_ok" "agents/echo_ok.py" "succeeds";
     OpRegister "echo_fail" "agents/echo_fail.py" "fails";
     OpParallel (repeat (mkTask "echo_ok" (PyDict [])) 7
                 ++ repeat (mkTask "echo_fail" (PyDict [])) 18)]
    (initial_state ".").

(** * Properties *)

(** Split conjunctions only. *)
Ltac split_all := repeat match goal with |- _ /\ _ => split end.

(** Unfolding the monad's plumbing down to pairs. *)
Ltac run_monad :=
  unfold new_AgentResult, now_isoformat, path_exists, run_process, dumps,
    append_result, of_outcome, try_except, bind, ret, raise, emit, get_self,
    set_self, fresh_tick in *;
  simpl in *.

Lemma bind_return {A B} (m : M A) (k : A -> M B) st a st' :
  m st = (Return a, st') -> bind m k st = k a st'.
Proof. intros H. unfold bind. now rewrite H. Qed.

Lemma bind_raise {A B} (m : M A) (k : A -> M B) st e st' :
  m st = (Raise e, st') -> bind m k st = (Raise e, st').
Proof. intros H. unfold bind. now rewrite H. Qed.

Lemma bind_cong {A B} (m1 m2 : M A) (k1 k2 : A -> M B) st :
  m1 st = m2 st -> (forall a st', k1 a st' = k2 a st') ->
  bind m1 k1 st = bind m2 k2 st.
Proof.
  intros Hm H. unfold bind. rewrite Hm. destruct (m2 st) as [[a|e] st']; auto.
Qed.

Lemma bind_ext {A B} (m : M A) (k1 k2 : A -> M B) st :
  (forall a st', k1 a st' = k2 a st') -> bind m k1 st = bind m k2 st.
Proof. now apply bind_cong. Qed.

Lemma try_except_ext {A} (b1 b2 : M A) (h1 h2 : exn -> M A) st :
  (forall st', b1 st' = b2 st') -> (forall e st', h1 e st' = h2 e st') ->
  try_except b1 h1 st = try_except b2 h2 st.
Proof.
  intros Hb Hh. unfold try_except. rewrite Hb.
  destruct (b2 st) as [[a|e] st']; auto.
Qed.

(** ** The console: a console that takes every line changes nothing *)

Section ConsoleFacts.

Variable orc : oracle.
Variable stdout_write : string -> outcome unit.
Variable summary_json : summary -> string.

Lemma bind_print_raise {A} line (k : unit -> M A) e st :
  stdout_write line = Raise e ->
  bind (Console.print stdout_write line) k st = (Raise e, st).
Proof. intros H. unfold bind, Console.print. now rewrite H. Qed.

Lemma bind_print_return {A} line (k : unit -> M A) st :
  stdout_write line = Return tt ->
  bind (Console.print stdout_write line) k st = k tt st.
Proof. intros H. unfold bind, Console.print. now rewrite H. Qed.

Hypothesis stdout_accepts : forall line, stdout_write line = Return tt.

Lemma bind_print {A} line (k : unit -> M A) st :
  bind (Console.print stdout_write line) k st = k tt st.
Proof. apply bind_print_return, stdout_accepts. Qed.

Lemma console_spawn_agent name task_data st :
  Console.spawn_agent orc stdout_write name task_data st
  = spawn_agent orc name task_data st.
Proof.
  unfold Console.spawn_agent, spawn_agent.
  apply bind_ext; intros _ st1. apply bind_ext; intros o st2.
  destruct (agents o !! name) as [info|]; [|reflexivity].
  destruct (negb (active info)); [reflexivity|].
  rewrite bind_print. apply try_except_ext.
  - intros st3. apply bind_ext; intros js st4. apply bind_ext; intros cp st5.
    destruct (returncode cp =? 0); now rewrite bind_print.
  - intros e st3. destruct (exn_type e); now rewrite bind_print.
Qed.

Lemma console_submit t st :
  Console.submit orc stdout_write t st = submit orc t st.
Proof.
  unfold Console.submit, submit.
  apply bind_ext; intros _ st1. apply bind_ext; intros tk st2.
  now rewrite console_spawn_agent.
Qed.

Lemma console_submit_all tasks st :
  Console.submit_all orc stdout_write tasks st = submit_all orc tasks st.
Proof.
  revert st. induction tasks as [|t rest IH]; intros st; [reflexivity|].
  cbn [Console.submit_all submit_all].
  apply bind_cong; [apply console_submit|]. intros f st1.
  apply bind_cong; [apply IH|]. reflexivity.
Qed.

Lemma console_orchestrate_parallel tasks st :
  Console.orchestrate_parallel orc stdout_write tasks st
  = orchestrate_parallel orc tasks st.
Proof.
  unfold Console.orchestrate_parallel, orchestrate_parallel.
  rewrite bind_print. apply bind_ext; intros _ st1.
  apply bind_cong; [apply console_submit_all|]. reflexivity.
Qed.

Lemma console_run_feature_pipeline feature st :
  Console.run_feature_pipeline orc stdout_write feature st
  = run_feature_pipeline orc feature st.
Proof.
  unfold Console.run_feature_pipeline, run_feature_pipeline.
  rewrite bind_print. apply bind_ext; intros o st1.
  apply bind_cong; [apply console_orchestrate_parallel|]. intros rs1 st2.
  destruct (negb (forallb success rs1)); [now rewrite bind_print|].
  apply bind_cong; [apply console_orchestrate_parallel|]. intros rs2 st3.
  apply bind_cong; [apply console_orchestrate_parallel|]. intros rs3 st4.
  cbv zeta. destruct (forallb success (rs2 ++ rs3)); now rewrite bind_print.
Qed.

Lemma console_main_body st :
  Console.main_body orc stdout_write summary_json st = main_body orc st.
Proof.
  unfold Console.main_body, main_body.
  do 5 (apply bind_ext; intros _ ?).
  apply bind_cong; [apply console_orchestrate_parallel|]. intros rs st6.
  apply bind_ext; intros s st7. now rewrite !bind_print.
Qed.

End ConsoleFacts.

Section SpawnAgent.

Variable orc : oracle.

Lemma launches_app tr1 tr2 : launches (tr1 ++ tr2) = launches tr1 ++ launches tr2.
Proof. apply flat_map_app. Qed.

Lemma spawned_app tr1 tr2 : spawned (tr1 ++ tr2) = spawned tr1 ++ spawned tr2.
Proof. apply flat_map_app. Qed.

Lemma submitted_app tr1 tr2 :
  submitted (tr1 ++ tr2) = submitted tr1 ++ submitted tr2.
Proof. apply flat_map_app. Qed.

Ltac spawn_done :=
  simpl; rewrite <- ?app_assoc; simpl; repeat split; simpl; eauto; lia.

#[local] Hint Constructors Forall : core.
Ltac spawn_launch := eexists _, _, [EvLaunch _ _]; spawn_done.
Ltac spawn_quiet := eexists _, _, (@nil event); spawn_done.

(** The full behaviour of [spawn_agent], one case per path of the code. *)
Lemma spawn_agent_spec name task_data st :
  exists r st' evs,
    spawn_agent orc name task_data st = (Return r, st') /\
    self st' = self st /\
    trace st' = trace st ++ EvSpawn name task_data :: evs /\
    spawned evs = [] /\ submitted evs = [] /\
    (length (launches evs) <= 1)%nat /\
    Forall (fun l => snd l = 60) (launches evs) /\
    (tick st <= tick st')%nat /\
    agent_name r = name /\
    artifacts r = [].
Proof.
  unfold spawn_agent. run_monad.
  destruct (agents (self st) !! name) as [info|] eqn:Hlook.
  - destruct (active info) eqn:Hact; simpl.
    + destruct (json_dumps orc task_data) as [js|e] eqn:Hjs; simpl.
      * destruct (subprocess_run orc (tick st)
                    ["python3"%string; script info; js] 60) as [cp|e] eqn:Hrun;
          simpl.
        -- destruct (returncode cp =? 0); spawn_launch.
        -- destruct (exn_type e); spawn_launch.
      * destruct (exn_type e); spawn_quiet.
    + spawn_quiet.
  - spawn_quiet.
Qed.

(** The paths one by one. *)

Lemma spawn_agent_unregistered name task_data st :
  agents (self st) !! name = None ->
  spawn_agent orc name task_data st =
    (Return (mkAgentResult name false
               ("Agent " +:+ name +:+ " not registered") []
               (datetime_now orc (tick st))),
     mkState (self st) (S (tick st)) (trace st ++ [EvSpawn name task_data])).
Proof. intros H. unfold spawn_agent. run_monad. now rewrite H. Qed.

Lemma spawn_agent_inactive name task_data st info :
  agents (self st) !! name = Some info ->
  active info = false ->
  spawn_agent orc name task_data st =
    (Return (mkAgentResult name false
               ("Agent script " +:+ script info +:+ " not found") []
               (datetime_now orc (tick st))),
     mkState (self st) (S (tick st)) (trace st ++ [EvSpawn name task_data])).
Proof.
  intros H Hact. unfold spawn_agent. run_monad. now rewrite H, Hact.
Qed.




End SpawnAgent.

(** ** The dispatcher *)

Section Dispatch.

Variable orc : oracle.

Lemma submit_spec t st :
  exists r st' evs,
    submit orc t st =
      (Return (mkFuture (yield_rank orc (tick st)) (Return r)), st') /\
    self st' = self st /\
    trace st' =
      trace st ++ EvSubmit (agent t) (data t) :: EvSpawn (agent t) (data t) :: evs /\
    spawned evs = [] /\ submitted evs = [] /\
    (length (launches evs) <= 1)%nat /\
    Forall (fun l => snd l = 60) (launches evs) /\
    (tick st <= tick st')%nat /\
    agent_name r = agent t /\
    artifacts r = [].
Proof.
  unfold submit. run_monad.
  destruct (spawn_agent_spec orc (agent t) (data t)
              (mkState (self st) (S (tick st))
                 (trace st ++ [EvSubmit (agent t) (data t)])))
    as (r & st' & evs & Hrun & Hself & Htr & Hsp & Hsu & Hlen & H60 & Htk & Hn & Ha).
  rewrite Hrun. exists r, st', evs. simpl in *.
  rewrite <- app_assoc in Htr. simpl in Htr.
  repeat split; auto. lia.
Qed.

Lemma submit_all_spec tasks : forall st,
  exists fs st' evs,
    submit_all orc tasks st = (Return fs, st') /\
    all_returned fs /\
    self st' = self st /\
    trace st' = trace st ++ evs /\
    submitted evs = map agent tasks /\
    spawned evs = map agent tasks /\
    (length (launches evs) <= length tasks)%nat /\
    Forall (fun l => snd l = 60) (launches evs) /\
    (tick st <= tick st')%nat /\
    map agent_name (results_of fs) = map agent tasks /\
    Forall (fun r => artifacts r = []) (results_of fs).
Proof.
  induction tasks as [|t rest IH]; intros st.
  - exists [], st, []. simpl. rewrite app_nil_r.
    repeat split; auto. constructor.
  - destruct (submit_spec t st)
      as (r & st1 & ev1 & Hrun & Hself & Htr & Hsp & Hsu & Hlen & H60 & Htk & Hn & Ha).
    destruct (IH st1)
      as (fs & st2 & ev2 & Hrun2 & Hall & Hself2 & Htr2 & Hsu2 & Hsp2 & Hlen2
          & H602 & Htk2 & Hn2 & Ha2).
    exists (mkFuture (yield_rank orc (tick st)) (Return r) :: fs), st2,
      (EvSubmit (agent t) (data t) :: EvSpawn (agent t) (data t) :: ev1 ++ ev2).
    simpl. unfold bind at 1. rewrite Hrun. unfold bind at 1. rewrite Hrun2.
    unfold ret. repeat split.
    + constructor; [eexists; reflexivity | exact Hall].
    + congruence.
    + rewrite Htr2, Htr, <- app_assoc. reflexivity.
    + rewrite submitted_app, Hsu, Hsu2. reflexivity.
    + rewrite spawned_app, Hsp, Hsp2. reflexivity.
    + rewrite launches_app, length_app. lia.
    + rewrite launches_app. apply Forall_app. auto.
    + lia.
    + rewrite Hn, Hn2. reflexivity.
    + constructor; assumption.
Qed.

Lemma insert_completed_perm f fs : Permutation (insert_completed f fs) (f :: fs).
Proof.
  induction fs as [|g rest IH]; simpl.
  - reflexivity.
  - destruct (yield_key f <? yield_key g)%nat.
    + reflexivity.
    + rewrite IH. apply perm_swap.
Qed.

Lemma as_completed_perm fs : Permutation (as_completed fs) fs.
Proof.
  induction fs as [|f rest IH]; simpl.
  - reflexivity.
  - rewrite insert_completed_perm. now constructor.
Qed.

Lemma results_of_perm fs fs' :
  Permutation fs fs' -> Permutation (results_of fs) (results_of fs').
Proof. intros H. unfold results_of. now apply Permutation_flat_map. Qed.

Lemma all_returned_perm fs fs' :
  Permutation fs fs' -> all_returned fs' -> all_returned fs.
Proof.
  unfold all_returned. intros H Hall. eapply Permutation_Forall; [|exact Hall].
  now symmetry.
Qed.

Lemma collect_spec fs : forall acc st,
  all_returned fs ->
  collect fs acc st =
    (Return (acc ++ results_of fs),
     mkState (mkOrchestrator (workspace_path (self st)) (agents (self st))
                (results (self st) ++ results_of fs))
       (tick st) (trace st)).
Proof.
  induction fs as [|f rest IH]; intros acc st Hall; simpl.
  - unfold ret. rewrite !app_nil_r. now destruct st as [[? ? ?] ? ?].
  - inversion Hall as [|? ? [r Hr] Hrest]; subst.
    rewrite Hr. run_monad. rewrite IH by assumption. simpl.
    now rewrite <- !app_assoc.
Qed.

Lemma orchestrate_parallel_empty st :
  orchestrate_parallel orc [] st =
    (Raise (mkExn ValueError "max_workers must be greater than 0"), st).
Proof. reflexivity. Qed.

Lemma pool_size_positive (tasks : list task) :
  tasks <> [] -> (Z.min (Z.of_nat (length tasks)) 4 <=? 0) = false.
Proof.
  intros Hne. destruct tasks as [|t rest]; [congruence|].
  apply Z.leb_gt. simpl length. lia.
Qed.

(** A non-empty batch: every task is submitted and run, the results come
    back in the order [as_completed] yields them and are appended to the
    history. *)
Lemma orchestrate_parallel_spec tasks st :
  tasks <> [] ->
  exists rs st' evs,
    orchestrate_parallel orc tasks st = (Return rs, st') /\
    workspace_path (self st') = workspace_path (self st) /\
    agents (self st') = agents (self st) /\
    results (self st') = results (self st) ++ rs /\
    trace st' = trace st ++ evs /\
    submitted evs = map agent tasks /\
    spawned evs = map agent tasks /\
    (length (launches evs) <= length tasks)%nat /\
    Forall (fun l => snd l = 60) (launches evs) /\
    (tick st <= tick st')%nat /\
    Permutation (map agent_name rs) (map agent tasks) /\
    length rs = length tasks /\
    Forall (fun r => artifacts r = []) rs.
Proof.
  intros Hne.
  destruct (submit_all_spec tasks st)
    as (fs & st1 & evs & Hrun & Hall & Hself & Htr & Hsu & Hsp & Hlen & H60
        & Htk & Hn & Ha).
  pose proof (as_completed_perm fs) as Hperm.
  exists (results_of (as_completed fs)),
    (mkState (mkOrchestrator (workspace_path (self st1)) (agents (self st1))
                (results (self st1) ++ results_of (as_completed fs)))
       (tick st1) (trace st1)), evs.
  unfold orchestrate_parallel, ThreadPoolExecutor.
  rewrite (pool_size_positive tasks Hne).
  unfold bind at 1. unfold ret at 1. unfold bind at 1. rewrite Hrun.
  rewrite collect_spec by (eapply all_returned_perm; eauto).
  rewrite Hself. simpl. repeat split; auto.
  - rewrite <- Hn. apply Permutation_map. now apply results_of_perm.
  - apply (f_equal (@length _)) in Hn. rewrite !length_map in Hn.
    rewrite <- Hn. apply Permutation_length. now apply results_of_perm.
  - eapply Permutation_Forall; [|exact Ha].
    symmetry. now apply results_of_perm.
Qed.

End Dispatch.

(** ** The pipeline *)

Section Pipeline.

Variable orc : oracle.

Lemma extends_refl st : extends st st [] [].
Proof. constructor; rewrite ?app_nil_r; auto. Qed.

Lemma extends_trans st1 st2 st3 rs1 rs2 ev1 ev2 :
  extends st1 st2 rs1 ev1 -> extends st2 st3 rs2 ev2 ->
  extends st1 st3 (rs1 ++ rs2) (ev1 ++ ev2).
Proof.
  intros [W1 A1 R1 T1 K1] [W2 A2 R2 T2 K2]. constructor.
  - congruence.
  - congruence.
  - rewrite R2, R1, app_assoc. reflexivity.
  - rewrite T2, T1, app_assoc. reflexivity.
  - lia.
Qed.

Lemma orchestrate_parallel_extends tasks st :
  tasks <> [] ->
  exists rs st' evs,
    orchestrate_parallel orc tasks st = (Return rs, st') /\
    extends st st' rs evs /\
    submitted evs = map agent tasks /\
    spawned evs = map agent tasks /\
    Forall (fun l => snd l = 60) (launches evs) /\
    length rs = length tasks.
Proof.
  intros Hne.
  destruct (orchestrate_parallel_spec orc tasks st Hne)
    as (rs & st' & evs & Hrun & Hw & Ha & Hr & Ht & Hsu & Hsp & _ & H60 & Hk
        & _ & Hlen & _).
  exists rs, st', evs. split_all; auto. constructor; auto.
Qed.

(** The two ways through [run_feature_pipeline], phase by phase. *)
Lemma run_feature_pipeline_spec feature st :
  exists plan st1 ev1,
    orchestrate_parallel orc
      (planning_tasks feature (workspace_path (self st))) st
      = (Return plan, st1) /\
    extends st st1 plan ev1 /\
    length plan = 1%nat /\
    submitted ev1 = ["planner"%string] /\ spawned ev1 = ["planner"%string] /\
    Forall (fun l => snd l = 60) (launches ev1) /\
    if forallb success plan then
      exists impl st2 ev2 review st3 ev3,
        orchestrate_parallel orc implementation_tasks st1 = (Return impl, st2) /\
        extends st1 st2 impl ev2 /\
        length impl = 3%nat /\
        submitted ev2 = ["refactor"; "test_gen"; "doc_gen"]%string /\
        spawned ev2 = ["refactor"; "test_gen"; "doc_gen"]%string /\
        Forall (fun l => snd l = 60) (launches ev2) /\
        orchestrate_parallel orc (review_tasks impl) st2 = (Return review, st3) /\
        extends st2 st3 review ev3 /\
        length review = 1%nat /\
        submitted ev3 = ["reviewer"%string] /\ spawned ev3 = ["reviewer"%string] /\
        Forall (fun l => snd l = 60) (launches ev3) /\
        run_feature_pipeline orc feature st
          = (Return (forallb success (impl ++ review)), st3)
    else
      run_feature_pipeline orc feature st = (Return false, st1).
Proof.
  destruct (orchestrate_parallel_extends
              (planning_tasks feature (workspace_path (self st))) st)
    as (plan & st1 & ev1 & Hrun1 & Hext1 & Hsu1 & Hsp1 & H601 & Hlen1);
    [discriminate|].
  exists plan, st1, ev1. split_all; auto.
  assert (Hpipe : run_feature_pipeline orc feature st =
            (if negb (forallb success plan) then ret false
             else
               impl_results <- orchestrate_parallel orc implementation_tasks ;;
               review_results <-
                 orchestrate_parallel orc (review_tasks impl_results) ;;
               ret (forallb success (impl_results ++ review_results))) st1).
  { unfold run_feature_pipeline.
    rewrite (bind_return get_self _ st (self st) st eq_refl).
    now rewrite (bind_return _ _ _ _ _ Hrun1). }
  rewrite Hpipe.
  destruct (forallb success plan) eqn:Hplan; simpl; [|reflexivity].
  destruct (orchestrate_parallel_extends implementation_tasks st1)
    as (impl & st2 & ev2 & Hrun2 & Hext2 & Hsu2 & Hsp2 & H602 & Hlen2);
    [discriminate|].
  destruct (orchestrate_parallel_extends (review_tasks impl) st2)
    as (review & st3 & ev3 & Hrun3 & Hext3 & Hsu3 & Hsp3 & H603 & Hlen3);
    [discriminate|].
  exists impl, st2, ev2, review, st3, ev3.
  rewrite (bind_return _ _ _ _ _ Hrun2), (bind_return _ _ _ _ _ Hrun3).
  split_all; auto.
Qed.

End Pipeline.

(** ** Sessions *)

Section Sessions.

Variable orc : oracle.





(** Only [register_agent] touches the registry. *)
Lemma run_op_agents name o st :
  registers name o = false ->
  agents (self (run_op orc o st)) !! name = agents (self st) !! name.
Proof.
  destruct o as [n path descr|n payload|tasks|feature|]; simpl; intros Hreg.
  - unfold register_agent. run_monad.
    apply lookup_insert_ne. intros ->. now rewrite String.eqb_refl in Hreg.
  - destruct (spawn_agent_spec orc n payload st)
      as (r & st' & evs & Hrun & Hself & _).
    rewrite Hrun. simpl. now rewrite Hself.
  - destruct tasks as [|t rest].
    + now rewrite orchestrate_parallel_empty.
    + destruct (orchestrate_parallel_extends orc (t :: rest) st)
        as (rs & st' & evs & Hrun & Hext & _); [discriminate|].
      rewrite Hrun. simpl. destruct Hext. congruence.
  - destruct (run_feature_pipeline_spec orc feature st)
      as (plan & st1 & ev1 & Hrun1 & Hext1 & _ & _ & _ & _ & Hrest).
    destruct (forallb success plan).
    + destruct Hrest
        as (impl & st2 & ev2 & review & st3 & ev3 & _ & Hext2 & _ & _ & _ & _
            & _ & Hext3 & _ & _ & _ & _ & Hrun).
      rewrite Hrun. simpl.
      destruct Hext1, Hext2, Hext3. congruence.
    + rewrite Hrest. simpl. destruct Hext1. congruence.
  - reflexivity.
Qed.

Lemma run_ops_agents name ops : forall st,
  forallb (fun o => negb (registers name o)) ops = true ->
  agents (self (run_ops orc ops st)) !! name = agents (self st) !! name.
Proof.
  induction ops as [|o ops IH]; intros st Hall; simpl in *.
  - reflexivity.
  - apply andb_true_iff in Hall as [Ho Hall].
    unfold run_ops in *. simpl. rewrite IH by assumption.
    apply run_op_agents. now apply negb_true_iff.
Qed.

End Sessions.

(** ** Agents that are registered but not on disk *)

Section Unavailable.

Variable orc : oracle.

Lemma submit_all_unavailable tasks : forall st,
  Forall (unavailable st) tasks ->
  exists fs st',
    submit_all orc tasks st = (Return fs, st') /\
    all_returned fs /\
    self st' = self st /\
    launches (trace st') = launches (trace st) /\
    Forall (fun r => success r = false) (results_of fs).
Proof.
  induction tasks as [|t rest IH]; intros st Hall.
  - exists [], st. simpl. split_all; auto. constructor.
  - inversion Hall as [|? ? (info & Hlook & Hact) Hrest]; subst.
    set (st0 := mkState (self st) (S (tick st))
                  (trace st ++ [EvSubmit (agent t) (data t)])).
    pose proof (spawn_agent_inactive orc (agent t) (data t) st0 info Hlook Hact)
      as Hrun.
    set (r := mkAgentResult (agent t) false
                ("Agent script " +:+ script info +:+ " not found") []
                (datetime_now orc (tick st0))) in *.
    set (st1 := mkState (self st0) (S (tick st0))
                  (trace st0 ++ [EvSpawn (agent t) (data t)])) in *.
    destruct (IH st1) as (fs & st2 & Hrun2 & Hret & Hself & Hl & Hfail).
    { revert Hrest. apply List.Forall_impl. intros t' Hu. exact Hu. }
    exists (mkFuture (yield_rank orc (tick st)) (Return r) :: fs), st2.
    simpl.
    assert (Hsub : submit orc t st =
              (Return (mkFuture (yield_rank orc (tick st)) (Return r)), st1)).
    { unfold submit. run_monad. fold st0. now rewrite Hrun. }
    rewrite (bind_return _ _ _ _ _ Hsub), (bind_return _ _ _ _ _ Hrun2).
    unfold ret. split_all; auto.
    + constructor; [eexists; reflexivity | exact Hret].
    + rewrite Hl. subst st1 st0. simpl.
      rewrite !launches_app. simpl. now rewrite !app_nil_r.
Qed.

Lemma orchestrate_parallel_unavailable tasks st :
  tasks <> [] ->
  Forall (unavailable st) tasks ->
  exists rs st',
    orchestrate_parallel orc tasks st = (Return rs, st') /\
    Forall (fun r => success r = false) rs /\
    launches (trace st') = launches (trace st).
Proof.
  intros Hne Hall.
  destruct (submit_all_unavailable tasks st Hall)
    as (fs & st1 & Hrun & Hret & Hself & Hl & Hfail).
  pose proof (as_completed_perm fs) as Hperm.
  eexists _, _. unfold orchestrate_parallel, ThreadPoolExecutor.
  rewrite (pool_size_positive tasks Hne).
  rewrite (bind_return (ret _) _ st _ st eq_refl).
  rewrite (bind_return _ _ _ _ _ Hrun).
  rewrite collect_spec by (eapply all_returned_perm; eauto).
  simpl. split_all; [reflexivity| |exact Hl].
  eapply Permutation_Forall; [|exact Hfail].
  symmetry. now apply results_of_perm.
Qed.

End Unavailable.

(** ** The worker pool *)

Section PoolFacts.

Variable orc : oracle.

Local Open Scope nat_scope.

Lemma held_app ws1 ws2 : held (ws1 ++ ws2) = held ws1 ++ held ws2.
Proof. apply flat_map_app. Qed.

(** Replacing worker [j]: what the workers hold, before and after. *)
Lemma held_split ws j w w' :
  ws !! j = Some w ->
  held ws = held (take j ws) ++ held [w] ++ held (drop (S j) ws) /\
  held (<[j := w']> ws) = held (take j ws) ++ held [w'] ++ held (drop (S j) ws).
Proof.
  intros Hj. split.
  - rewrite <- (take_drop_middle ws j w Hj) at 1.
    change (w :: drop (S j) ws) with ([w] ++ drop (S j) ws).
    now rewrite !held_app.
  - rewrite insert_take_drop by (eapply lookup_lt_Some; eauto).
    change (w' :: drop (S j) ws) with ([w'] ++ drop (S j) ws).
    now rewrite !held_app.
Qed.

Lemma held_take ws j id ph :
  ws !! j = Some Idle ->
  Permutation (held (<[j := Busy id ph]> ws)) (id :: held ws).
Proof.
  intros Hj. destruct (held_split ws j Idle (Busy id ph) Hj) as [-> ->].
  simpl. symmetry. apply Permutation_middle.
Qed.

Lemma held_advance ws j id ph ph' :
  ws !! j = Some (Busy id ph) ->
  held (<[j := Busy id ph']> ws) = held ws.
Proof.
  intros Hj. now destruct (held_split ws j (Busy id ph) (Busy id ph') Hj) as [-> ->].
Qed.

Lemma held_release ws j id ph :
  ws !! j = Some (Busy id ph) ->
  Permutation (held ws) (id :: held (<[j := Idle]> ws)).
Proof.
  intros Hj. destruct (held_split ws j (Busy id ph) Idle Hj) as [-> ->].
  simpl. symmetry. apply Permutation_middle.
Qed.

Lemma adjust_thread_count_spec tasks st0 sem ws cap sem' ws' :
  adjust_thread_count sem ws cap = (sem', ws') ->
  length ws <= cap -> Forall (worker_ok orc tasks st0) ws ->
  held ws' = held ws /\ length ws' <= cap /\
  Forall (worker_ok orc tasks st0) ws'.
Proof.
  unfold adjust_thread_count. intros Hadj Hlen Hok.
  destruct (0 <? sem) eqn:Hs.
  - injection Hadj as <- <-. auto.
  - destruct (length ws <? cap) eqn:Hl.
    + injection Hadj as <- <-. apply Nat.ltb_lt in Hl.
      rewrite held_app, length_app. simpl. rewrite app_nil_r.
      split_all; auto; [lia|].
      apply Forall_app. split; [exact Hok|]. now repeat constructor.
    + injection Hadj as <- <-. auto.
Qed.

Ltac pool_simpl :=
  unfold with_workers, with_main_thread;
  cbn [shared batch max_workers next_task queue idle_sem workers finished
       collected local_results main_thread].

(** The pool as the constructor leaves it, on a batch that is not empty. *)
Lemma start_running tasks st :
  tasks <> [] ->
  start tasks st
  = mkPool st tasks (Nat.min (length tasks) 4) 0 [] 0 [] [] [] [] Running.
Proof.
  intros Hne. unfold start, ThreadPoolExecutor.
  rewrite (pool_size_positive tasks Hne). unfold ret. f_equal.
  rewrite Z2Nat.inj_min, Nat2Z.id. reflexivity.
Qed.

Lemma start_inv tasks st :
  tasks <> [] -> pool_inv orc tasks st (start tasks st).
Proof.
  intros Hne. rewrite (start_running tasks st Hne).
  constructor; pool_simpl; auto; try lia.
  - cbn [length]. lia.
  - now rewrite app_nil_r.
Qed.

Lemma origin_returns tasks st0 id o :
  origin orc tasks st0 id o ->
  exists t r, tasks !! id = Some t /\ o = Return r /\ agent_name r = agent t.
Proof.
  intros (t & s & s' & Ht & _ & Hrun).
  destruct (spawn_agent_spec orc (agent t) (data t) s)
    as (r & s1 & evs & Hrun' & _ & _ & _ & _ & _ & _ & _ & Hname & _).
  rewrite Hrun in Hrun'. injection Hrun' as -> _. now exists t, r.
Qed.

(** Every action preserves the invariant. *)
Lemma exec_inv tasks st0 a p p' :
  pool_inv orc tasks st0 p -> exec orc a p = Some p' ->
  pool_inv orc tasks st0 p'.
Proof.
  intros [Hb Hcap Hthr Hnext Htasks Hws Hfin Hcol Hwsp Hag Hres Hmain] Hexec.
  destruct p as [sh bt cap next q sem ws fin col loc mt].
  cbn [shared batch max_workers next_task queue idle_sem workers finished
       collected local_results main_thread] in *.
  subst bt.
  destruct a as [|j|j|j|j|k|]; cbn [exec] in Hexec;
    cbn [shared batch max_workers next_task queue idle_sem workers finished
         collected local_results main_thread] in Hexec.
  - (* submit *)
    destruct mt; try discriminate.
    destruct (tasks !! next) as [t|] eqn:Ht; [|discriminate].
    destruct (adjust_thread_count sem ws cap) as [sem' ws'] eqn:Hadj.
    injection Hexec as <-.
    destruct (adjust_thread_count_spec tasks st0 _ _ _ _ _ Hadj Hthr Hws)
      as (Hheld & Hlen & Hok).
    pose proof (lookup_lt_Some _ _ _ Ht) as Hlt.
    constructor; pool_simpl; auto.
    rewrite Hheld, seq_S. cbn [Nat.add].
    rewrite <- app_assoc. cbn [app].
    rewrite <- Permutation_middle, <- Permutation_cons_append.
    now constructor.
  - (* take *)
    destruct (ws !! j) as [[|id ph]|] eqn:Hj; try discriminate.
    destruct q as [|id rest]; [discriminate|].
    injection Hexec as <-.
    constructor; pool_simpl; rewrite ?length_insert; auto.
    + rewrite (held_take ws j id BeforeRun Hj).
      cbn [app]. rewrite <- Permutation_middle. exact Htasks.
    + apply Forall_insert; [exact Hws | exact I].
  - (* start *)
    destruct (ws !! j) as [[|id [|o|o]]|] eqn:Hj; try discriminate.
    destruct (tasks !! id) as [t|] eqn:Ht; [|discriminate].
    destruct (spawn_agent_spec orc (agent t) (data t) sh)
      as (r & st' & evs & Hrun & Hself & _).
    rewrite Hrun in Hexec. injection Hexec as <-.
    constructor; pool_simpl; rewrite ?length_insert, ?Hself; auto.
    + destruct (launched sh st');
        now rewrite (held_advance ws j id BeforeRun _ Hj).
    + apply Forall_insert; [exact Hws|].
      destruct (launched sh st'); now exists t, sh, st'.
  - (* exit *)
    destruct (ws !! j) as [[|id [|o|o]]|] eqn:Hj; try discriminate.
    injection Hexec as <-.
    constructor; pool_simpl; rewrite ?length_insert; auto.
    + now rewrite (held_advance ws j id (ChildAlive o) (AfterRun o) Hj).
    + apply Forall_insert; [exact Hws|].
      exact (Forall_lookup_1 _ _ _ _ Hws Hj).
  - (* done *)
    destruct (ws !! j) as [[|id [|o|o]]|] eqn:Hj; try discriminate.
    injection Hexec as <-.
    constructor; pool_simpl; rewrite ?length_insert; auto.
    + rewrite (held_release ws j id (AfterRun o) Hj) in Htasks.
      rewrite <- Htasks, List.map_app. cbn [map fst app].
      apply Permutation_app_head.
      rewrite <- !app_assoc. cbn [app]. rewrite !app_assoc.
      symmetry. apply Permutation_middle.
    + apply Forall_insert; [exact Hws | exact I].
    + apply Forall_app. split; [exact Hfin|].
      constructor; [|constructor]. exact (Forall_lookup_1 _ _ _ _ Hws Hj).
  - (* collect *)
    destruct mt; try discriminate.
    destruct (fin !! k) as [[id o]|] eqn:Hk; [|discriminate].
    destruct (next =? length tasks); [|discriminate].
    pose proof (Forall_lookup_1 _ _ _ _ Hfin Hk) as Horigin.
    cbn [fst snd] in Horigin.
    destruct (origin_returns _ _ _ _ Horigin) as (t & r & Ht & -> & Hname).
    injection Hexec as <-.
    pose proof (Permutation_map fst (delete_Permutation fin k _ Hk)) as Hdel.
    cbn [map fst] in Hdel.
    constructor; pool_simpl; auto.
    + rewrite <- Htasks. do 2 apply Permutation_app_head.
      rewrite Hdel. cbn [app].
      rewrite app_assoc, <- Permutation_cons_append. reflexivity.
    + now apply Forall_delete.
    + apply Forall2_app; [exact Hcol|]. now repeat constructor.
    + cbn. rewrite Hres. now rewrite app_assoc.
  - (* return *)
    destruct mt; try discriminate; [|contradiction].
    destruct ((next =? length tasks) && (length col =? length tasks))
      eqn:Hguard; [|discriminate].
    injection Hexec as <-.
    apply andb_true_iff in Hguard as [_ Hlen]. apply Nat.eqb_eq in Hlen.
    constructor; pool_simpl; auto.
Qed.

Lemma run_schedule_inv tasks st0 acts : forall p p',
  pool_inv orc tasks st0 p -> run_schedule orc acts p = Some p' ->
  pool_inv orc tasks st0 p'.
Proof.
  induction acts as [|a rest IH]; intros p p' Hinv Hrun; cbn in Hrun.
  - now injection Hrun as <-.
  - destruct (exec orc a p) as [p1|] eqn:Hexec; [|discriminate].
    eapply IH; [|exact Hrun]. eapply exec_inv; eauto.
Qed.

(** On the empty batch the constructor has raised: there is no pool and
    no action. *)
Lemma start_empty st a : exec orc a (start [] st) = None.
Proof. destruct a as [|[|j]|[|j]|[|j]|[|j]|[|k]|]; reflexivity. Qed.

Lemma run_schedule_empty st acts p :
  run_schedule orc acts (start [] st) = Some p -> p = start [] st.
Proof.
  destruct acts as [|a rest]; cbn [run_schedule].
  - now intros [= <-].
  - now rewrite start_empty.
Qed.

Lemma in_flight_le_workers p : in_flight p <= length (workers p).
Proof.
  unfold in_flight. induction (workers p) as [|w ws IH]; cbn.
  - lia.
  - destruct w as [|id [| |]]; cbn; lia.
Qed.

Lemma in_flight_held p : held (workers p) = [] -> in_flight p = 0.
Proof.
  unfold in_flight. induction (workers p) as [|w ws IH]; cbn.
  - reflexivity.
  - destruct w as [|id ph]; cbn; [exact IH | discriminate].
Qed.

(** Once the call has returned, every task of the batch has run to its
    end, its result has been collected and nothing is left in the pool. *)
Lemma returned_all_done tasks st0 p rs :
  pool_inv orc tasks st0 p -> main_thread p = Returned rs ->
  rs = local_results p /\
  queue p = [] /\ held (workers p) = [] /\ finished p = [] /\
  Permutation (collected p) (seq 0 (length tasks)).
Proof.
  intros [Hb Hcap Hthr Hnext Htasks Hws Hfin Hcol Hwsp Hag Hres Hmain] Hret.
  rewrite Hret in Hmain. destruct Hmain as [-> Hlen].
  pose proof (Permutation_length Htasks) as Hl.
  rewrite !length_app, length_map, length_seq in Hl.
  assert (Hq : queue p = []) by (apply length_zero_iff_nil; lia).
  assert (Hh : held (workers p) = []) by (apply length_zero_iff_nil; lia).
  assert (Hf : finished p = []) by (apply length_zero_iff_nil; lia).
  assert (Hn : next_task p = length tasks) by lia.
  rewrite Hq, Hh, Hf, Hn in Htasks. cbn [app map] in Htasks. auto.
Qed.

(** The names of the results collected are those of the tasks
    collected. *)
Lemma collected_names tasks st0 ids rs :
  Forall2 (fun id r => origin orc tasks st0 id (Return r)) ids rs ->
  Forall2 (fun id r => exists t, tasks !! id = Some t /\ agent_name r = agent t)
    ids rs.
Proof.
  induction 1 as [|id r ids rs Ho _ IH]; constructor; [|exact IH].
  destruct (origin_returns _ _ _ _ Ho) as (t & r' & Ht & [= <-] & Hname).
  now exists t.
Qed.

Lemma names_of_collected (tasks : list task) ids rs :
  Forall2 (fun id r => exists t, tasks !! id = Some t /\ agent_name r = agent t)
    ids rs ->
  map agent_name rs
  = map (fun id => default ""%string (agent <$> tasks !! id)) ids.
Proof.
  induction 1 as [|id r ids rs (t & Ht & Hname) _ IH]; [reflexivity|].
  cbn [map]. rewrite Ht. cbn. now rewrite Hname, IH.
Qed.

Lemma map_lookup_seq {A B} (f : A -> B) (d : B) (l : list A) :
  map (fun id => default d (f <$> l !! id)) (seq 0 (length l)) = map f l.
Proof.
  induction l as [|a l IH]; [reflexivity|].
  cbn [length seq map]. f_equal.
  rewrite <- seq_shift, map_map. exact IH.
Qed.

(** The results returned carry the names of the tasks of the batch, each
    once. *)
Lemma returned_names tasks st0 p rs :
  pool_inv orc tasks st0 p -> main_thread p = Returned rs ->
  Permutation (map agent_name rs) (map agent tasks).
Proof.
  intros Hinv Hret.
  destruct (returned_all_done _ _ _ _ Hinv Hret) as (-> & _ & _ & _ & Hperm).
  rewrite (names_of_collected tasks (collected p) (local_results p))
    by (eapply collected_names, inv_collected; eauto).
  rewrite <- (map_lookup_seq agent ""%string tasks).
  now apply Permutation_map.
Qed.

(** *** The embedded call as a schedule *)






End PoolFacts.

(** * The claims *)

(** C1 fails on the code.  An agent is registered and its script exists;
    standard output has the [ascii] encoding.  [spawn_agent] raises
    [UnicodeEncodeError] at its first [print], which stands before the
    [try]; no process has been launched and no [AgentResult] is
    returned. *)
Lemma spawn_agent_raises_on_ascii_stdout :
  exists e st',
    Console.spawn_agent scenario_oracle ascii_stdout "echo_ok" (PyDict [])
      (registered scenario_oracle "echo_ok" "agents/echo_ok.py" "succeeds")
    = (Raise e, st') /\
    exn_type e = UnicodeEncodeError /\
    launches (trace st') = [].
Proof.
  eexists _, _. split; [vm_compute; reflexivity|]. split; reflexivity.
Qed.





Lemma sum_ones_from {A} (l : list A) (acc : Z) :
  fold_left Z.add (map (fun _ => 1) l) acc = acc + Z.of_nat (length l).
Proof.
  revert acc. induction l as [|x l IH]; intros acc; simpl fold_left.
  - simpl. lia.
  - rewrite IH. simpl length. lia.
Qed.

Lemma sum_successful_count rs :
  sum_successful rs = Z.of_nat (length (List.filter success rs)).
Proof. unfold sum_successful. rewrite sum_ones_from. lia. Qed.

Lemma partition_by_success (rs : list AgentResult) :
  length rs =
    (length (List.filter success rs)
     + length (List.filter (fun r => negb (success r)) rs))%nat.
Proof.
  induction rs as [|r rs IH]; simpl.
  - reflexivity.
  - destruct (success r); simpl; lia.
Qed.

(** C4, as the spec words it, fails: on a history of seven successes and
    eighteen failures the counts are as claimed, but the rate the code
    computes, [7 / 25 * 100] in doubles, is [28.000000000000004]
    ([0x1.c000000000001p+4]), while [100*7/25] is [28]. *)
Lemma summary_rate_rounds :
  exists s,
    get_summary rounding_session = (Return s, rounding_session) /\
    total_agents s = 25 /\ successful s = 7 /\ failed s = 18 /\
    success_rate s = PyFloat 0x1.c000000000001p+4 /\
    rate_as_specified 7 18 = 28%float /\
    success_rate s <> PyFloat (rate_as_specified 7 18).
Proof.
  eexists. split; [reflexivity|].
  split_all; try (vm_compute; reflexivity).
  intros H.
  apply (f_equal (fun y => match y with
                           | PyFloat x => PrimFloat.eqb x 28
                           | PyZ _ => false
                           end)) in H.
  vm_compute in H. discriminate.
Qed.

(** C4, amended.  On a history holding [k] successful and [m] failed
    results, [get_summary] returns [total_agents = k + m],
    [successful = k], [failed = m] and, as [success_rate], the double
    [k / (k + m) * 100] computed in that order, division first, or the
    integer [0] when the history is empty; it leaves the state, history
    included, as it was. *)
Theorem summary_counts (st : state) :
  let rs := results (self st) in
  let k := Z.of_nat (length (List.filter success rs)) in
  let m := Z.of_nat (length (List.filter (fun r => negb (success r)) rs)) in
  exists s,
    get_summary st = (Return s, st) /\
    total_agents s = k + m /\
    successful s = k /\
    failed s = m /\
    success_rate s =
      (if k + m =? 0 then PyZ 0
       else PyFloat (float_of_Z k / float_of_Z (k + m) * 100)%float) /\
    map fst (map fst (summary_results s)) = map agent_name rs.
Proof.
  intros rs k m. eexists. split; [reflexivity|].
  cbn [total_agents successful failed success_rate summary_results].
  fold rs. rewrite sum_successful_count. fold k.
  assert (Htotal : Z.of_nat (length rs) = k + m).
  { subst k m. rewrite (partition_by_success rs). lia. }
  rewrite Htotal. split_all; try lia.
  - destruct (k + m =? 0) eqn:Hz.
    + apply Z.eqb_eq in Hz. now rewrite Hz.
    + apply Z.eqb_neq in Hz.
      assert (Hpos : (k + m >? 0) = true) by (apply Z.gtb_lt; lia).
      now rewrite Hpos.
  - rewrite !map_map. reflexivity.
Qed.

(** C5.  An agent registered while its script is not on disk has
    [active = False], fixed at that moment.  After any later calls that do
    not register the name again, and whatever the filesystem has become,
    every run of the agent, direct or in a batch, returns a failure and
    adds no process launch to the trace. *)
Theorem unavailable_agent_never_launched (orc : oracle)
    (name path descr : string) (st : state) (ops : list op) :
  os_path_exists orc (tick st) path = false ->
  forallb (fun o => negb (registers name o)) ops = true ->
  let st1 := snd (register_agent orc name path descr st) in
  let st2 := run_ops orc ops st1 in
  agents (self st1) !! name = Some (mkAgentInfo path descr false) /\
  (forall payload, exists r st3,
     spawn_agent orc name payload st2 = (Return r, st3) /\
     success r = false /\
     launches (trace st3) = launches (trace st2)) /\
  (forall tasks,
     tasks <> [] -> Forall (fun t => agent t = name) tasks ->
     exists rs st3,
       orchestrate_parallel orc tasks st2 = (Return rs, st3) /\
       Forall (fun r => success r = false) rs /\
       launches (trace st3) = launches (trace st2)).
Proof.
  intros Hmissing Hops st1 st2.
  assert (H1 : agents (self st1) !! name = Some (mkAgentInfo path descr false)).
  { subst st1. unfold register_agent. run_monad.
    rewrite Hmissing. apply lookup_insert_eq. }
  assert (H2 : agents (self st2) !! name = Some (mkAgentInfo path descr false)).
  { subst st2. now rewrite run_ops_agents. }
  split_all.
  - exact H1.
  - intros payload.
    rewrite (spawn_agent_inactive orc name payload st2 _ H2 eq_refl).
    eexists _, _. split; [reflexivity|]. simpl. split; [reflexivity|].
    rewrite launches_app. simpl. now rewrite app_nil_r.
  - intros tasks Hne Hall.
    apply orchestrate_parallel_unavailable; [exact Hne|].
    revert Hall. apply List.Forall_impl. intros t Ht.
    exists (mkAgentInfo path descr false). now rewrite Ht.
Qed.

Lemma unavailable_agent_never_launched_witness :
  let orc := late_oracle (Return (mkCompleted 0 "ok" "")) in
  let ops := [OpRegister "planner" "agents/planner_agent.py" "plans";
              OpSpawn "planner" (PyDict []);
              OpPipeline "feature"; OpSummary] in
  let st1 := snd (register_agent orc "ghost" "agents/ghost.py" "absent"
                    (initial_state ".")) in
  let st2 := run_ops orc ops st1 in
  agents (self st1) !! "ghost"
    = Some (mkAgentInfo "agents/ghost.py" "absent" false) /\
  (forall payload, exists r st3,
     spawn_agent orc "ghost" payload st2 = (Return r, st3) /\
     success r = false /\
     launches (trace st3) = launches (trace st2)) /\
  (forall tasks,
     tasks <> [] -> Forall (fun t => agent t = "ghost"%string) tasks ->
     exists rs st3,
       orchestrate_parallel orc tasks st2 = (Return rs, st3) /\
       Forall (fun r => success r = false) rs /\
       launches (trace st3) = launches (trace st2)).
Proof.
  intros orc ops.
  apply (unavailable_agent_never_launched orc "ghost" "agents/ghost.py"
           "absent" (initial_state ".") ops).
  - reflexivity.
  - reflexivity.
Defined.









(** C9.  [orchestrate_parallel] run as a pool of threads over the
    embedded [spawn_agent], on every batch, from every state and under
    every schedule of the main thread and the workers: the child processes
    in flight never exceed [min(len(tasks), 4)]; and once the call has
    returned, every task of the batch has run to its end (the queue is
    empty, no worker holds a task, no child is in flight, every future has
    been collected), the list returned holds, for each task, a result that
    [spawn_agent] gave for it, the history has grown by that list, and the
    list agrees in length and agent names with what the embedded
    [orchestrate_parallel] returns. *)
Theorem pool_bounds_children (orc : oracle) (tasks : list task) (st : state)
    (acts : list action) (p : pool)
    (Hrun : run_schedule orc acts (start tasks st) = Some p) :
  (in_flight p <= Nat.min (length tasks) 4)%nat /\
  forall rs, main_thread p = Returned rs ->
    queue p = [] /\ held (workers p) = [] /\ in_flight p = 0%nat /\
    finished p = [] /\
    Permutation (collected p) (seq 0 (length tasks)) /\
    Forall2 (fun id r => origin orc tasks st id (Return r)) (collected p) rs /\
    length rs = length tasks /\
    results (self (shared p)) = results (self st) ++ rs /\
    exists rs' st',
      orchestrate_parallel orc tasks st = (Return rs', st') /\
      length rs = length rs' /\
      Permutation (map agent_name rs) (map agent_name rs').
Proof.
  destruct tasks as [|t tasks'].
  - apply run_schedule_empty in Hrun. subst p. split; [exact (le_n 0)|].
    intros rs Hret. discriminate Hret.
  - set (tasks := t :: tasks') in *.
    assert (Hne : tasks <> []) by discriminate.
    pose proof (run_schedule_inv orc tasks st acts _ _
                  (start_inv orc tasks st Hne) Hrun) as Hinv.
    split.
    + pose proof (in_flight_le_workers p) as Hle.
      pose proof (inv_threads _ _ _ _ Hinv) as Hthr.
      pose proof (inv_cap _ _ _ _ Hinv) as Hcap. lia.
    + intros rs Hret.
      destruct (returned_all_done orc _ _ _ _ Hinv Hret)
        as (Hrs & Hq & Hh & Hf & Hperm).
      pose proof (returned_names orc _ _ _ _ Hinv Hret) as Hnames.
      pose proof (inv_collected _ _ _ _ Hinv) as Hcol.
      pose proof (inv_results _ _ _ _ Hinv) as Hres.
      rewrite <- Hrs in Hcol, Hres.
      assert (Hlen : length rs = length tasks).
      { rewrite <- (Forall2_length _ _ _ Hcol), (Permutation_length Hperm).
        apply length_seq. }
      destruct (orchestrate_parallel_spec orc tasks st Hne)
        as (rs' & st' & evs & Hpar & _ & _ & _ & _ & _ & _ & _ & _ & _
            & Hnames' & Hlen' & _).
      split_all; auto; [now apply in_flight_held|].
      exists rs', st'. split_all; [exact Hpar | congruence |].
      now rewrite Hnames, Hnames'.
Qed.

Lemma pool_bounds_children_witness :
  let orc := scenario_oracle in
  let st := registered orc "echo_ok" "agents/echo_ok.py" "succeeds" in
  let tasks := [mkTask "echo_ok" (PyDict []); mkTask "echo_fail" (PyDict [])] in
  match run_schedule orc two_worker_schedule (start tasks st) with
  | Some p =>
      (in_flight p <= Nat.min (length tasks) 4)%nat /\
      forall rs, main_thread p = Returned rs ->
        queue p = [] /\ held (workers p) = [] /\ in_flight p = 0%nat /\
        finished p = [] /\
        Permutation (collected p) (seq 0 (length tasks)) /\
        Forall2 (fun id r => origin orc tasks st id (Return r))
          (collected p) rs /\
        length rs = length tasks /\
        results (self (shared p)) = results (self st) ++ rs /\
        exists rs' st',
          orchestrate_parallel orc tasks st = (Return rs', st') /\
          length rs = length rs' /\
          Permutation (map agent_name rs) (map agent_name rs')
  | None => False
  end.
Proof.
  intros orc st tasks.
  destruct (run_schedule orc two_worker_schedule (start tasks st))
    as [p|] eqn:Hrun.
  - exact (pool_bounds_children orc tasks st two_worker_schedule p Hrun).
  - vm_compute in Hrun. discriminate Hrun.
Defined.


(** * Further properties *)

(** ** The registry *)

(** X1.  [register_agent] stores under the name the script path, the
    description and whether the path exists at that instant; every other
    entry of the registry, the history, the workspace and the trace are
    left as they were. *)
Theorem register_agent_records (orc : oracle) (name path descr : string)
    (st : state) :
  let run := register_agent orc name path descr st in
  fst run = Return tt /\
  agents (self (snd run)) !! name
    = Some (mkAgentInfo path descr (os_path_exists orc (tick st) path)) /\
  (forall other, other <> name ->
     agents (self (snd run)) !! other = agents (self st) !! other) /\
  results (self (snd run)) = results (self st) /\
  workspace_path (self (snd run)) = workspace_path (self st) /\
  trace (snd run) = trace st.
Proof.
  unfold register_agent. run_monad. split_all; auto.
  - apply lookup_insert_eq.
  - intros other Hne. now apply lookup_insert_ne.
Qed.

(** X2.  Registering a name twice keeps the second registration only: the
    registry is the one a single registration with the second path and
    description would give. *)
Theorem register_agent_last_wins (orc : oracle)
    (name path1 descr1 path2 descr2 : string) (st : state) :
  let st1 := snd (register_agent orc name path1 descr1 st) in
  let st2 := snd (register_agent orc name path2 descr2 st1) in
  agents (self st2)
    = <[name := mkAgentInfo path2 descr2
                  (os_path_exists orc (S (tick st)) path2)]> (agents (self st)).
Proof.
  unfold register_agent. run_monad. apply insert_insert_eq.
Qed.



(** ** The process runner *)




(** X6.  A request for an agent that was never registered is answered with
    a failure that echoes the requested name and says
    ["Agent <name> not registered"]; nothing is launched and nothing is
    recorded. *)
Theorem unregistered_agent_reported (orc : oracle) (name : string)
    (payload : pyval) (st : state) :
  agents (self st) !! name = None ->
  exists r st',
    spawn_agent orc name payload st = (Return r, st') /\
    agent_name r = name /\
    success r = false /\
    output r = ("Agent " +:+ name +:+ " not registered")%string /\
    launches (trace st') = launches (trace st) /\
    self st' = self st.
Proof.
  intros Hnone.
  rewrite (spawn_agent_unregistered orc name payload st Hnone).
  eexists _, _. split; [reflexivity|]. simpl. split_all; auto.
  rewrite launches_app. simpl. now rewrite app_nil_r.
Qed.

Lemma unregistered_agent_reported_witness :
  let orc := fixed_oracle true (Return (mkCompleted 0 "ok" "")) in
  exists r st',
    spawn_agent orc "ghost" (PyDict []) (initial_state ".") = (Return r, st') /\
    agent_name r = "ghost"%string /\
    success r = false /\
    output r = "Agent ghost not registered"%string /\
    launches (trace st') = launches (trace (initial_state ".")) /\
    self st' = self (initial_state ".").
Proof.
  intros orc.
  apply (unregistered_agent_reported orc "ghost" (PyDict []) (initial_state ".")).
  reflexivity.
Defined.





(** ** The dispatcher, task by task *)

Section Isolation.

Variable orc : oracle.

(** What [orchestrate_parallel] does once the futures are known. *)
Lemma orchestrate_parallel_collects tasks st fs st1 :
  tasks <> [] ->
  submit_all orc tasks st = (Return fs, st1) ->
  all_returned fs ->
  orchestrate_parallel orc tasks st =
    (Return (results_of (as_completed fs)),
     mkState (mkOrchestrator (workspace_path (self st1)) (agents (self st1))
                (results (self st1) ++ results_of (as_completed fs)))
       (tick st1) (trace st1)).
Proof.
  intros Hne Hrun Hall.
  unfold orchestrate_parallel, ThreadPoolExecutor.
  rewrite (pool_size_positive tasks Hne).
  rewrite (bind_return (ret _) _ st _ st eq_refl).
  rewrite (bind_return _ _ _ _ _ Hrun).
  apply collect_spec.
  eapply all_returned_perm; [apply as_completed_perm | exact Hall].
Qed.



End Isolation.



(** ** The pipeline, payloads and verdict *)

Section PipelineCalls.

Variable orc : oracle.

Lemma spawn_calls_app tr1 tr2 :
  spawn_calls (tr1 ++ tr2) = spawn_calls tr1 ++ spawn_calls tr2.
Proof. apply flat_map_app. Qed.

Lemma spawn_calls_quiet evs : spawned evs = [] -> spawn_calls evs = [].
Proof.
  induction evs as [|e evs IH]; simpl; intros Hs.
  - reflexivity.
  - destruct e; simpl in *; try discriminate; auto.
Qed.

Lemma submit_all_calls tasks : forall st,
  exists fs st' evs,
    submit_all orc tasks st = (Return fs, st') /\
    trace st' = trace st ++ evs /\
    spawn_calls evs = map (fun t => (agent t, data t)) tasks.
Proof.
  induction tasks as [|t rest IH]; intros st.
  - exists [], st, []. simpl. now rewrite app_nil_r.
  - destruct (submit_spec orc t st)
      as (r & st1 & ev1 & Hrun & _ & Htr & Hsp & _).
    destruct (IH st1) as (fs & st2 & ev2 & Hrun2 & Htr2 & Hcalls).
    eexists _, st2,
      (EvSubmit (agent t) (data t) :: EvSpawn (agent t) (data t) :: ev1 ++ ev2).
    simpl. rewrite (bind_return _ _ _ _ _ Hrun), (bind_return _ _ _ _ _ Hrun2).
    unfold ret. split_all; [reflexivity| |].
    + rewrite Htr2, Htr, <- app_assoc. reflexivity.
    + rewrite spawn_calls_app, (spawn_calls_quiet ev1 Hsp), Hcalls.
      reflexivity.
Qed.

(** A non-empty batch: the calls it makes, the results it appends. *)
Lemma orchestrate_parallel_calls tasks st :
  tasks <> [] ->
  exists rs st' evs,
    orchestrate_parallel orc tasks st = (Return rs, st') /\
    extends st st' rs evs /\
    spawn_calls evs = map (fun t => (agent t, data t)) tasks /\
    length rs = length tasks /\
    Forall (fun r => artifacts r = []) rs /\
    (length (launches evs) <= length tasks)%nat.
Proof.
  intros Hne.
  destruct (orchestrate_parallel_spec orc tasks st Hne)
    as (rs & st' & evs & Hrun & Hw & Ha & Hr & Ht & _ & _ & Hl & _ & Hk
        & _ & Hlen & Harts).
  destruct (submit_all_calls tasks st) as (fs & st1 & evs' & Hsub & Htr & Hcalls).
  exists rs, st', evs. split_all; auto.
  - constructor; auto.
  - assert (Hsame : trace st' = trace st1).
    { destruct (submit_all_spec orc tasks st)
        as (fs2 & st2 & ev2 & Hsub2 & Hall2 & _).
      rewrite Hsub in Hsub2. injection Hsub2 as <- <-.
      rewrite (orchestrate_parallel_collects orc tasks st fs st1 Hne Hsub Hall2)
        in Hrun.
      now injection Hrun as _ <-. }
    rewrite Hsame, Htr in Ht. apply app_inv_head in Ht. now subst.
Qed.

Lemma no_artifacts_payload (impl : list AgentResult) :
  Forall (fun r => artifacts r = []) impl ->
  length impl = 3%nat ->
  review_tasks impl = [mkTask "reviewer" empty_review_payload].
Proof.
  intros Harts Hlen.
  destruct impl as [|r1 [|r2 [|r3 [|r4 rest]]]]; try discriminate.
  inversion Harts as [|? ? H1 Harts']; subst.
  inversion Harts' as [|? ? H2 Harts'']; subst.
  inversion Harts'' as [|? ? H3 _]; subst.
  unfold review_tasks, empty_review_payload. simpl.
  now rewrite H1, H2, H3.
Qed.

(** Everything a run of the pipeline does, in one statement. *)
Lemma run_feature_pipeline_full feature st :
  exists b new st' evs,
    run_feature_pipeline orc feature st = (Return b, st') /\
    extends st st' new evs /\
    Forall (fun r => artifacts r = []) new /\
    (length (launches evs) <= length new)%nat /\
    b = (length new =? 5)%nat && forallb success new /\
    ((length new = 1%nat /\
      spawn_calls evs
        = map (fun t => (agent t, data t))
            (planning_tasks feature (workspace_path (self st)))) \/
     (length new = 5%nat /\
      spawn_calls evs
        = map (fun t => (agent t, data t))
            (planning_tasks feature (workspace_path (self st))
             ++ implementation_tasks
             ++ [mkTask "reviewer" empty_review_payload]))).
Proof.
  destruct (orchestrate_parallel_calls
              (planning_tasks feature (workspace_path (self st))) st)
    as (plan & st1 & ev1 & Hrun1 & Hext1 & Hc1 & Hlen1 & Ha1 & Hl1);
    [discriminate|].
  assert (Hpipe : run_feature_pipeline orc feature st =
            (if negb (forallb success plan) then ret false
             else
               impl_results <- orchestrate_parallel orc implementation_tasks ;;
               review_results <-
                 orchestrate_parallel orc (review_tasks impl_results) ;;
               ret (forallb success (impl_results ++ review_results))) st1).
  { unfold run_feature_pipeline.
    rewrite (bind_return get_self _ st (self st) st eq_refl).
    now rewrite (bind_return _ _ _ _ _ Hrun1). }
  rewrite Hpipe. clear Hpipe.
  destruct (forallb success plan) eqn:Hplan; simpl.
  - destruct (orchestrate_parallel_calls implementation_tasks st1)
      as (impl & st2 & ev2 & Hrun2 & Hext2 & Hc2 & Hlen2 & Ha2 & Hl2);
      [discriminate|].
    pose proof (no_artifacts_payload impl Ha2 Hlen2) as Hreview.
    destruct (orchestrate_parallel_calls (review_tasks impl) st2)
      as (review & st3 & ev3 & Hrun3 & Hext3 & Hc3 & Hlen3 & Ha3 & Hl3);
      [discriminate|].
    rewrite (bind_return _ _ _ _ _ Hrun2), (bind_return _ _ _ _ _ Hrun3).
    exists (forallb success (impl ++ review)), ((plan ++ impl) ++ review), st3,
      ((ev1 ++ ev2) ++ ev3).
    rewrite Hreview in Hc3, Hlen3.
    simpl in Hlen1, Hlen2, Hlen3.
    assert (Hfive : length ((plan ++ impl) ++ review) = 5%nat)
      by (rewrite !length_app; lia).
    split_all.
    + reflexivity.
    + eapply extends_trans; [eapply extends_trans|]; eauto.
    + repeat apply Forall_app_2; assumption.
    + rewrite !launches_app, !length_app. simpl in Hl1, Hl2, Hl3. lia.
    + rewrite Hfive, !forallb_app, Hplan. reflexivity.
    + right. split; [exact Hfive|].
      rewrite !spawn_calls_app, Hc1, Hc2, Hc3. reflexivity.
  - exists false, plan, st1, ev1. simpl in Hlen1, Hl1.
    split_all.
    + reflexivity.
    + exact Hext1.
    + exact Ha1.
    + now rewrite Hlen1.
    + now rewrite Hlen1.
    + left. split; assumption.
Qed.

End PipelineCalls.

(** X12.  On a console that takes every line, [run_feature_pipeline]
    with its [print] calls returns.  It appends one result to the history
    (the planner's, when planning failed) or five, launches at most as many
    processes, and returns [True] exactly when it appended five results
    and all of them are successes. *)
Theorem pipeline_verdict (orc : oracle) (stdout_write : string -> outcome unit)
    (feature : string) (st : state)
    (stdout_accepts : forall line, stdout_write line = Return tt) :
  exists b new st' evs,
    Console.run_feature_pipeline orc stdout_write feature st = (Return b, st') /\
    results (self st') = results (self st) ++ new /\
    trace st' = trace st ++ evs /\
    (length new = 1%nat \/ length new = 5%nat) /\
    (length (launches evs) <= length new)%nat /\
    b = (length new =? 5)%nat && forallb success new.
Proof.
  rewrite (console_run_feature_pipeline orc stdout_write stdout_accepts).
  destruct (run_feature_pipeline_full orc feature st)
    as (b & new & st' & evs & Hrun & Hext & _ & Hl & Hb & Hcases).
  exists b, new, st', evs. destruct Hext.
  split_all; auto. destruct Hcases as [[H _]|[H _]]; auto.
Qed.

Lemma pipeline_verdict_witness :
  (forall line, utf8_stdout line = Return tt) /\
  exists b new st' evs,
    Console.run_feature_pipeline
      (fixed_oracle true (Return (mkCompleted 0 "ok" ""))) utf8_stdout
      "add login" (initial_state ".") = (Return b, st') /\
    results (self st') = results (self (initial_state ".")) ++ new /\
    trace st' = trace (initial_state ".") ++ evs /\
    (length new = 1%nat \/ length new = 5%nat) /\
    (length (launches evs) <= length new)%nat /\
    b = (length new =? 5)%nat && forallb success new.
Proof.
  split; [reflexivity|].
  apply (pipeline_verdict (fixed_oracle true (Return (mkCompleted 0 "ok" "")))
           utf8_stdout "add login" (initial_state ".")).
  reflexivity.
Defined.




Section PipelineVerdict.

Variable orc : oracle.





End PipelineVerdict.



(** ** Invariants of a session *)

Section SessionInvariants.

Variable orc : oracle.

(** What any one call may change. *)
Lemma run_op_frame o st :
  exists rs,
    results (self (run_op orc o st)) = results (self st) ++ rs /\
    workspace_path (self (run_op orc o st)) = workspace_path (self st) /\
    Forall (fun r => artifacts r = []) rs /\
    (forall name, is_Some (agents (self st) !! name) ->
                  is_Some (agents (self (run_op orc o st)) !! name)).
Proof.
  destruct o as [name path descr|name payload|tasks|feature|]; simpl.
  - exists []. unfold register_agent. run_monad.
    rewrite app_nil_r. split_all; auto.
    intros n Hn. rewrite lookup_insert_is_Some. destruct (decide (name = n)); auto.
  - destruct (spawn_agent_spec orc name payload st)
      as (r & st' & evs & Hrun & Hself & _).
    rewrite Hrun. simpl. rewrite Hself. exists [].
    rewrite app_nil_r. auto.
  - destruct tasks as [|t rest].
    + rewrite orchestrate_parallel_empty. simpl. exists [].
      rewrite app_nil_r. auto.
    + destruct (orchestrate_parallel_calls orc (t :: rest) st)
        as (rs & st' & evs & Hrun & Hext & _ & _ & Harts & _); [discriminate|].
      rewrite Hrun. simpl. destruct Hext. exists rs.
      split_all; auto. intros n Hn. congruence.
  - destruct (run_feature_pipeline_full orc feature st)
      as (b & new & st' & evs & Hrun & Hext & Harts & _).
    rewrite Hrun. simpl. destruct Hext. exists new.
    split_all; auto. intros n Hn. congruence.
  - exists []. rewrite app_nil_r. auto.
Qed.

Lemma run_ops_frame ops : forall st,
  exists rs,
    results (self (run_ops orc ops st)) = results (self st) ++ rs /\
    workspace_path (self (run_ops orc ops st)) = workspace_path (self st) /\
    Forall (fun r => artifacts r = []) rs /\
    (forall name, is_Some (agents (self st) !! name) ->
                  is_Some (agents (self (run_ops orc ops st)) !! name)).
Proof.
  induction ops as [|o ops IH]; intros st.
  - exists []. simpl. rewrite app_nil_r. auto.
  - destruct (run_op_frame o st) as (rs1 & Hr1 & Hw1 & Ha1 & Hreg1).
    destruct (IH (run_op orc o st)) as (rs2 & Hr2 & Hw2 & Ha2 & Hreg2).
    exists (rs1 ++ rs2). unfold run_ops in *. simpl.
    split_all.
    + rewrite Hr2, Hr1, app_assoc. reflexivity.
    + congruence.
    + now apply Forall_app_2.
    + auto.
Qed.

End SessionInvariants.

(** X16.  The history is append-only: whatever methods are called, in
    whatever order, the history before is a prefix of the history after,
    and the workspace path never changes. *)
Theorem history_append_only (orc : oracle) (ops : list op) (st : state) :
  exists new,
    results (self (run_ops orc ops st)) = results (self st) ++ new /\
    workspace_path (self (run_ops orc ops st)) = workspace_path (self st).
Proof.
  destruct (run_ops_frame orc ops st) as (rs & Hr & Hw & _).
  now exists rs.
Qed.

(** X17.  The registry only grows: no method removes an agent, so a name
    that is registered stays registered through every later call. *)
Theorem registry_only_grows (orc : oracle) (ops : list op) (st : state)
    (name : string) :
  is_Some (agents (self st) !! name) ->
  is_Some (agents (self (run_ops orc ops st)) !! name).
Proof.
  destruct (run_ops_frame orc ops st) as (rs & _ & _ & _ & Hreg).
  apply Hreg.
Qed.

Lemma registry_only_grows_witness :
  let orc := late_oracle (Return (mkCompleted 0 "ok" "")) in
  let st := registered orc "planner" "agents/planner_agent.py" "plans" in
  let ops := [OpPipeline "feature";
              OpRegister "planner" "agents/other.py" "replaced";
              OpParallel []; OpSummary] in
  is_Some (agents (self (run_ops orc ops st)) !! "planner"%string).
Proof.
  intros orc st ops.
  apply (registry_only_grows orc ops st "planner").
  eexists. reflexivity.
Defined.

(** X18.  No result in the history ever carries an artifact: on an
    orchestrator started fresh, after any sequence of calls, every recorded
    result has an empty [artifacts] list. *)
Theorem history_has_no_artifacts (orc : oracle) (ops : list op)
    (ws : string) :
  Forall (fun r => artifacts r = [])
    (results (self (run_ops orc ops (initial_state ws)))).
Proof.
  destruct (run_ops_frame orc ops (initial_state ws)) as (rs & Hr & _ & Ha & _).
  rewrite Hr. exact Ha.
Qed.

(** ** The summary *)



(** X22.  A direct [spawn_agent] call is invisible to the summary: the
    summary taken after it is the summary taken before. *)
Theorem summary_ignores_direct_spawn (orc : oracle) (name : string)
    (payload : pyval) (st : state) :
  fst (get_summary (snd (spawn_agent orc name payload st)))
    = fst (get_summary st).
Proof.
  destruct (spawn_agent_spec orc name payload st)
    as (r & st' & evs & Hrun & Hself & _).
  rewrite Hrun. unfold get_summary. run_monad. now rewrite Hself.
Qed.

(** ** The worker pool and the embedded call *)


(** ** [main] *)

Lemma register_agent_run (orc : oracle) (name path descr : string)
    (st : state) :
  register_agent orc name path descr st =
    (Return tt,
     mkState
       (mkOrchestrator (workspace_path (self st))
          (<[name := mkAgentInfo path descr (os_path_exists orc (tick st) path)]>
             (agents (self st)))
          (results (self st)))
       (S (tick st)) (trace st)).
Proof. reflexivity. Qed.

(** X24.  On a console that takes every line, [main] with its [print]
    calls runs to its end: it registers five agents, runs the three
    demonstration tasks and no other agent (the planner and the reviewer
    are registered and never run), launches at most three processes, and
    reports a total of three runs. *)
Theorem main_runs_three_tasks (orc : oracle)
    (stdout_write : string -> outcome unit) (summary_json : summary -> string)
    (stdout_accepts : forall line, stdout_write line = Return tt) :
  exists s st',
    Console.main orc stdout_write summary_json = (Return s, st') /\
    total_agents s = 3 /\
    Permutation (map (fun line => fst (fst line)) (summary_results s))
      ["refactor"; "test_gen"; "doc_gen"]%string /\
    spawned (trace st') = ["refactor"; "test_gen"; "doc_gen"]%string /\
    (length (launches (trace st')) <= 3)%nat /\
    dom (agents (self st'))
      = ({["planner"; "refactor"; "test_gen"; "doc_gen"; "reviewer"]}%string
         : gset string).
Proof.
  unfold Console.main.
  rewrite (console_main_body orc stdout_write summary_json stdout_accepts).
  unfold main_body.
  repeat (erewrite (bind_return (register_agent orc _ _ _));
          [|apply register_agent_run]).
  match goal with
  | |- context [bind (orchestrate_parallel orc demo_tasks) _ ?st] =>
      set (st5 := st)
  end.
  destruct (orchestrate_parallel_spec orc demo_tasks st5)
    as (rs & st' & evs & Hrun & Hw & Ha & Hr & Ht & _ & Hsp & Hl & _ & _
        & Hperm & Hlen & _); [discriminate|].
  rewrite (bind_return _ _ _ _ _ Hrun).
  eexists _, st'. split; [reflexivity|].
  cbn [total_agents summary_results].
  rewrite Hr, Ht, Ha. subst st5.
  unfold initial_state, new_orchestrator.
  cbn [self results trace agents app workspace_path tick].
  rewrite Hsp, Hlen.
  split_all.
  - reflexivity.
  - rewrite !map_map. exact Hperm.
  - reflexivity.
  - exact Hl.
  - rewrite !dom_insert_L, dom_empty_L. set_solver.
Qed.

Lemma main_runs_three_tasks_witness :
  (forall line, utf8_stdout line = Return tt) /\
  exists s st',
    Console.main (fixed_oracle false (Return (mkCompleted 0 "ok" "")))
      utf8_stdout totals_json = (Return s, st') /\
    total_agents s = 3 /\
    Permutation (map (fun line => fst (fst line)) (summary_results s))
      ["refactor"; "test_gen"; "doc_gen"]%string /\
    spawned (trace st') = ["refactor"; "test_gen"; "doc_gen"]%string /\
    (length (launches (trace st')) <= 3)%nat /\
    dom (agents (self st'))
      = ({["planner"; "refactor"; "test_gen"; "doc_gen"; "reviewer"]}%string
         : gset string).
Proof.
  split; [reflexivity|].
  apply (main_runs_three_tasks
           (fixed_oracle false (Return (mkCompleted 0 "ok" "")))
           utf8_stdout totals_json).
  reflexivity.
Defined.

(** ** The console refusing a line *)

(** X27.  When the console refuses the line that announces the agent,
    [spawn_agent] raises what the console raised: the [print] stands before
    the [try].  The agent is registered and available; nothing has been
    launched, and the orchestrator is as it was. *)
Theorem spawn_agent_refused_line_raises (orc : oracle)
    (stdout_write : string -> outcome unit) (name : string)
    (task_data : pyval) (st : state) (info : agent_info) (e : exn)
    (Hreg : agents (self st) !! name = Some info)
    (Hactive : active info = true)
    (Hrefused :
       stdout_write ("🤖 Spawning " +:+ name +:+ ": " +:+ description info)
       = Raise e) :
  Console.spawn_agent orc stdout_write name task_data st
  = (Raise e,
     mkState (self st) (tick st) (trace st ++ [EvSpawn name task_data])).
Proof.
  unfold Console.spawn_agent.
  unfold bind at 1. cbn [emit]. unfold bind at 1. cbn [get_self self].
  rewrite Hreg, Hactive. cbn [negb].
  now apply bind_print_raise.
Qed.

Lemma spawn_agent_refused_line_raises_witness :
  let st := registered scenario_oracle "echo_ok" "agents/echo_ok.py" "succeeds" in
  Console.spawn_agent scenario_oracle ascii_stdout "echo_ok" (PyDict []) st
  = (Raise (mkExn UnicodeEncodeError
              "'ascii' codec can't encode character: ordinal not in range(128)"),
     mkState (self st) (tick st) (trace st ++ [EvSpawn "echo_ok" (PyDict [])])).
Proof.
  intros st.
  apply (spawn_agent_refused_line_raises scenario_oracle ascii_stdout "echo_ok"
           (PyDict []) st (mkAgentInfo "agents/echo_ok.py" "succeeds" true)).
  - reflexivity.
  - reflexivity.
  - reflexivity.
Defined.

(** X28.  On a console that takes every line, [spawn_agent] with its
    [print] calls returns an [AgentResult] that echoes the agent's name,
    whatever the agent name, the payload and the state of the agent
    (unregistered, registered but not available, [json.dumps] or the launch
    raising, the child timing out, exiting non-zero or exiting zero). *)
Theorem spawn_agent_returns_on_open_console (orc : oracle)
    (stdout_write : string -> outcome unit) (name : string)
    (task_data : pyval) (st : state)
    (stdout_accepts : forall line, stdout_write line = Return tt) :
  exists r st',
    Console.spawn_agent orc stdout_write name task_data st = (Return r, st') /\
    agent_name r = name.
Proof.
  rewrite (console_spawn_agent orc stdout_write stdout_accepts).
  destruct (spawn_agent_spec orc name task_data st)
    as (r & st' & evs & Hrun & _ & _ & _ & _ & _ & _ & _ & Hname & _).
  now exists r, st'.
Qed.

Lemma spawn_agent_returns_on_open_console_witness :
  (forall line, utf8_stdout line = Return tt) /\
  exists r st',
    Console.spawn_agent (fixed_oracle true (Raise timed_out)) utf8_stdout
      "planner" (PyDict [])
      (registered (fixed_oracle true (Raise timed_out)) "planner"
         "agents/planner_agent.py" "plans")
    = (Return r, st') /\
    agent_name r = "planner"%string.
Proof.
  split; [reflexivity|].
  apply (spawn_agent_returns_on_open_console
           (fixed_oracle true (Raise timed_out)) utf8_stdout).
  reflexivity.
Defined.

(** X29.  When the launch raises and the console refuses the line the
    handler prints (the timeout line for [TimeoutExpired], the error line
    otherwise), [spawn_agent] raises what the console raised instead of
    returning the failure result; the launch is the only one recorded and
    the orchestrator is as it was. *)
Theorem failure_report_refused_raises (orc : oracle)
    (stdout_write : string -> outcome unit) (name : string)
    (task_data : pyval) (st : state) (info : agent_info) (js : string)
    (e e' : exn)
    (Hreg : agents (self st) !! name = Some info)
    (Hactive : active info = true)
    (Hline :
       stdout_write ("🤖 Spawning " +:+ name +:+ ": " +:+ description info)
       = Return tt)
    (Hjson : json_dumps orc task_data = Return js)
    (Hrun :
       subprocess_run orc (tick st) ["python3"; script info; js]%string 60
       = Raise e)
    (Hrefused : stdout_write (failure_report name e) = Raise e') :
  exists st',
    Console.spawn_agent orc stdout_write name task_data st = (Raise e', st') /\
    launches (trace st')
    = launches (trace st) ++ [(["python3"; script info; js]%string, 60)] /\
    self st' = self st.
Proof.
  unfold Console.spawn_agent.
  unfold bind at 1. cbn [emit]. unfold bind at 1. cbn [get_self self].
  rewrite Hreg, Hactive. cbn [negb].
  rewrite (bind_print_return _ _ _ _ Hline).
  unfold try_except, dumps. rewrite Hjson.
  unfold bind at 1. cbn [of_outcome ret].
  unfold run_process, bind, emit, fresh_tick. cbn [self tick trace].
  rewrite Hrun. cbn [of_outcome raise].
  unfold failure_report in Hrefused.
  eexists. split.
  - destruct (exn_type e); unfold Console.print; rewrite Hrefused; reflexivity.
  - cbn [trace self]. rewrite !launches_app. cbn. rewrite app_nil_r.
    split; reflexivity.
Qed.

Lemma failure_report_refused_raises_witness :
  let orc := fixed_oracle true (Raise timed_out) in
  let st := registered orc "planner" "agents/planner_agent.py" "plans" in
  exists st',
    Console.spawn_agent orc closing_pipe "planner" (PyDict []) st
    = (Raise (mkExn OSError "[Errno 32] Broken pipe"), st') /\
    launches (trace st')
    = launches (trace st)
      ++ [(["python3"; "agents/planner_agent.py"; "{}"]%string, 60)] /\
    self st' = self st.
Proof.
  intros orc st.
  apply (failure_report_refused_raises orc closing_pipe "planner" (PyDict [])
           st (mkAgentInfo "agents/planner_agent.py" "plans" true) "{}"
           timed_out).
  - reflexivity.
  - reflexivity.
  - reflexivity.
  - reflexivity.
  - reflexivity.
  - reflexivity.
Defined.

(** X30.  When the console refuses the first line of
    [run_feature_pipeline], which carries the feature request, the
    pipeline raises what the console raised and has done nothing: no agent
    is run and the state is as it was. *)
Theorem pipeline_banner_refused_raises (orc : oracle)
    (stdout_write : string -> outcome unit) (feature : string) (st : state)
    (e : exn)
    (Hrefused :
       stdout_write ("🚀 Starting feature pipeline: " +:+ feature) = Raise e) :
  Console.run_feature_pipeline orc stdout_write feature st = (Raise e, st).
Proof. unfold Console.run_feature_pipeline. now apply bind_print_raise. Qed.

Lemma pipeline_banner_refused_raises_witness :
  Console.run_feature_pipeline scenario_oracle ascii_stdout "add login"
    (initial_state ".")
  = (Raise (mkExn UnicodeEncodeError
              "'ascii' codec can't encode character: ordinal not in range(128)"),
     initial_state ".").
Proof.
  apply (pipeline_banner_refused_raises scenario_oracle ascii_stdout
           "add login" (initial_state ".")).
  reflexivity.
Defined.

(** X31.  With standard output in the [ascii] encoding [main] raises
    [UnicodeEncodeError] at the first line of [orchestrate_parallel],
    after the five registrations: no agent is run and there is no summary. *)
Theorem main_raises_on_ascii_stdout (orc : oracle)
    (summary_json : summary -> string) :
  exists e st',
    Console.main orc ascii_stdout summary_json = (Raise e, st') /\
    exn_type e = UnicodeEncodeError /\
    spawned (trace st') = [] /\
    results (self st') = [].
Proof.
  unfold Console.main, Console.main_body.
  repeat (erewrite (bind_return (register_agent orc _ _ _));
          [|apply register_agent_run]).
  eexists _, _. split.
  - apply bind_raise. unfold Console.orchestrate_parallel.
    apply bind_print_raise. reflexivity.
  - split_all; reflexivity.
Qed.

(** ** The registration demonstration *)

Section RegistryDemo.

Variable orc : oracle.






End RegistryDemo.




(** * Worked examples *)

(** The scenario of the spec: two results, one of each kind, and a summary
    of 2 runs, 1 success, 1 failure, 50 percent. *)
Example scenario_results :
  map (fun r => (agent_name r, success r, output r))
    (results (self scenario_session))
  = [("echo_ok", true, "hello"); ("echo_fail", false, "boom")]%string.
Proof. vm_compute. reflexivity. Qed.

Example scenario_summary :
  exists s,
    fst (get_summary scenario_session) = Return s /\
    total_agents s = 2 /\ successful s = 1 /\ failed s = 1 /\
    success_rate s = PyFloat 50.
Proof.
  eexists. split; [vm_compute; reflexivity|].
  split_all; vm_compute; reflexivity.
Qed.

(** One implementation agent missing: the reviewer is still run and the
    pipeline answers [False]. *)
Example degraded_pipeline :
  let orc := fixed_oracle true (Return (mkCompleted 0 "ok" "")) in
  let run := run_feature_pipeline orc "feature" degraded_session in
  fst run = Return false /\
  spawned (trace (snd run))
    = ["planner"; "refactor"; "test_gen"; "doc_gen"; "reviewer"]%string /\
  map success (results (self (snd run))) = [true; false; true; true; true].
Proof. intros orc run. split_all; vm_compute; reflexivity. Qed.

(** Two tasks on two workers: one child is in flight while both calls
    run, the call returns both results, the second task's first, and the
    history has grown by them. *)
Example two_worker_run :
  let orc := scenario_oracle in
  let st := registered orc "echo_ok" "agents/echo_ok.py" "succeeds" in
  let tasks := [mkTask "echo_ok" (PyDict []); mkTask "echo_fail" (PyDict [])] in
  option_map in_flight
    (run_schedule orc (firstn 6 two_worker_schedule) (start tasks st))
  = Some 1%nat /\
  exists p rs,
    run_schedule orc two_worker_schedule (start tasks st) = Some p /\
    main_thread p = Returned rs /\
    map agent_name rs = ["echo_fail"; "echo_ok"]%string /\
    map success rs = [false; true] /\
    results (self (shared p)) = rs.
Proof.
  intros orc st tasks. split; [vm_compute; reflexivity|].
  eexists _, _. split_all; vm_compute; reflexivity.
Qed.

(** The bound of the pool is reached: with ten tasks submitted, four
    children are in flight and a fifth worker does not exist. *)
Example pool_saturates :
  let orc := scenario_oracle in
  let st := registered orc "echo_ok" "agents/echo_ok.py" "succeeds" in
  let p0 := start (repeat (mkTask "echo_ok" (PyDict [])) 10) st in
  option_map in_flight (run_schedule orc saturating_schedule p0) = Some 4%nat /\
  run_schedule orc (saturating_schedule ++ [ActTake 4]) p0 = None.
Proof. intros orc st p0. split_all; vm_compute; reflexivity. Qed.
